(** * Versification engine and diatheke output parser

    A shallow embedding of [tools/extract_scriptures.py] (the hardened
    extractor: versification loader, book list flattener, verse parser
    with placeholder filtering) and of [tools/extract_bibles.py] (the
    baseline extractor: fixed KJV book table, verse parser without
    filtering).

    Modelling conventions.
    - A YAML mapping read as a record is a Rocq record.  A key the code
      reads with [d["k"]] is a plain field, a key it reads with
      [d.get("k")] or tests with ["k" in d] is an [option] field.
    - The versification directory is a finite map from canon names to
      parsed documents.
    - Python text is a list of Unicode code points, of any script.
      [str.isspace] and the regex class [\s] of a [str] pattern are the
      same set of twenty-nine code points; [\d] is the decimal digits
      of every script (category Nd), [int] reads each by its digit
      value, and [len] counts code points.
    - Identifiers, names and descriptions that the code only stores,
      compares and passes on are Rocq strings, read as UTF-8; where one
      becomes part of a text (a book name in a reference) it is decoded
      to code points.
    - The [re] module is modelled by a backtracking matcher over a small
      regex syntax, with the priorities of Python's engine (left
      alternative first, greedy repetition). *)

From Stdlib Require Import ZArith NArith Ascii String DecimalString.
From Stdlib Require Strings.Byte.
From stdpp Require Import gmap strings list.

Local Open Scope string_scope.
Local Open Scope list_scope.

(** A character is a Unicode code point. *)
Abbreviation char := N (only parsing).

(* ================================================================== *)
(** * Data model *)
(* ================================================================== *)

(** An entry of a [sub_books] sequence. The flattener reads [id],
    [name] and [chapters]; a [testament] key may be present in the
    document. *)
Record SubBook := {
  sub_id : string;
  sub_name : option string;
  sub_chapters : option Z;
  sub_testament : option string;
}.

(** An entry of [books] or [additional_books]. *)
Record BookEntry := {
  id : string;
  name : string;
  chapters : option Z;
  sub_books : option (list SubBook);
  testament : option string;
  merge_with : option string;
  insert_after : option string;
}.

(** A parsed versification document. *)
Record CanonDefinition := {
  canon_name : string;
  tradition : string;
  extends : option string;
  book_count : option Z;
  books : option (list BookEntry);
  additional_books : option (list BookEntry);
}.

(** The dictionaries appended by [get_all_books]. *)
Record BookUnit := {
  unit_id : string;
  unit_name : string;
  unit_chapters : Z;
  unit_testament : string;
}.

(** The dictionaries appended by [parse_diatheke_output]. *)
Record Verse := {
  number : Z;
  text : list char;
}.

(** The dictionaries returned by [get_chapter] and [get_book], and the
    content returned by [extract_scripture] and [extract_bible]
    ([sections] is always the empty list). *)
Record Chapter := {
  chapter_number : Z;
  verses : list Verse;
}.

Record Book := {
  book_id : string;
  book_name : string;
  book_testament : string;
  book_chapters : list Chapter;
}.

Record Content := {
  content : string;
  content_books : list Book;
}.

(** Python truth value of [d.get(k)] for a string-valued key: a missing
    key gives [None], and the empty string is false as well. *)
Definition truthy (o : option string) : bool :=
  match o with
  | Some s => negb (String.eqb s "")
  | None => false
  end.

(** Outcome of [load_versification]: the returned dictionary, the
    [FileNotFoundError] for the path of the given name, or a chain of
    [extends] longer than the recursion budget. *)
Inductive load_result :=
| Loaded (d : CanonDefinition)
| FileNotFound (missing : string)
| Diverges.

(* ================================================================== *)
(** * Text primitives: [str.strip], [str.split], [str.join], [int] *)
(* ================================================================== *)

Module Text.

Definition in_range (lo hi : N) (c : char) : bool :=
  (lo <=? c)%N && (c <=? hi)%N.

(** [str.isspace]: TAB..CR, FS..US, space, NEL, NBSP, the Ogham space
    mark, EN QUAD..HAIR SPACE, the line and paragraph separators, the
    narrow no-break, medium mathematical and ideographic spaces.  The
    regex class [\s] of a [str] pattern is the same set. *)
Definition isspace (c : char) : bool :=
  in_range 9 13 c || in_range 28 32 c
  || (c =? 133)%N || (c =? 160)%N || (c =? 5760)%N
  || in_range 8192 8202 c || in_range 8232 8233 c
  || (c =? 8239)%N || (c =? 8287)%N || (c =? 12288)%N.

(** The decimal digits (category Nd, Unicode 14.0 as in CPython 3.11)
    come in runs of ten, zero to nine: the first code point of each
    run. *)
Definition decades : list N :=
  [48; 1632; 1776; 1984; 2406; 2534; 2662; 2790; 2918; 3046; 3174;
   3302; 3430; 3558; 3664; 3792; 3872; 4160; 4240; 6112; 6160; 6470;
   6608; 6784; 6800; 6992; 7088; 7232; 7248; 42528; 43216; 43264;
   43472; 43504; 43600; 44016; 65296; 66720; 68912; 69734; 69872;
   69942; 70096; 70384; 70736; 70864; 71248; 71360; 71472; 71904;
   72016; 72784; 73040; 73120; 92768; 92864; 93008; 120782; 120792;
   120802; 120812; 120822; 123200; 123632; 125264; 130032]%N.

(** The run of digits a code point lies in, if any. *)
Definition decade (c : char) : option N :=
  List.find (fun lo => in_range lo (lo + 9) c) decades.

(** The regex class [\d] of a [str] pattern, and [str.isdecimal]. *)
Definition isdigit (c : char) : bool :=
  match decade c with Some _ => true | None => false end.

(** The value [int] gives a decimal digit. *)
Definition digit_value (c : char) : N :=
  match decade c with Some lo => c - lo | None => 0 end.

(** The regex class [[A-Za-z]]. *)
Definition isalpha (c : char) : bool :=
  in_range 65 90 c || in_range 97 122 c.

Definition is_char (x : char) (c : char) : bool := N.eqb c x.

Definition newline : char := 10%N.

(** The low [n] bits of a byte. *)
Definition low (n : N) (a : Ascii.ascii) : N := (N_of_ascii a mod 2 ^ n)%N.

(** The text of a string literal: its bytes read as UTF-8 (one to four
    bytes a code point); a byte out of place is kept as it is. *)
Fixpoint of_string (s : string) : list char :=
  match s with
  | EmptyString => []
  | String a s1 =>
      match a, s1 with
      | Ascii _ _ _ _ _ false true true, String a1 s2 =>
          (low 5 a * 64 + low 6 a1)%N :: of_string s2
      | Ascii _ _ _ _ false true true true, String a1 (String a2 s3) =>
          (low 4 a * 4096 + low 6 a1 * 64 + low 6 a2)%N :: of_string s3
      | Ascii _ _ _ false true true true true,
        String a1 (String a2 (String a3 s4)) =>
          (low 3 a * 262144 + low 6 a1 * 4096 + low 6 a2 * 64 + low 6 a3)%N
          :: of_string s4
      | _, _ => N_of_ascii a :: of_string s1
      end
  end.

Fixpoint lstrip (s : list char) : list char :=
  match s with
  | c :: s' => if isspace c then lstrip s' else s
  | [] => []
  end.

Definition rstrip (s : list char) : list char := rev (lstrip (rev s)).

(** [s.strip()] *)
Definition strip (s : list char) : list char := rstrip (lstrip s).

(** [s.split()]: maximal runs of non-space characters; [cur] is the
    run being read, reversed. *)
Fixpoint split_ws (cur s : list char) : list (list char) :=
  match s with
  | [] => match cur with [] => [] | _ => [rev cur] end
  | c :: s' =>
      if isspace c then
        match cur with
        | [] => split_ws [] s'
        | _ => rev cur :: split_ws [] s'
        end
      else split_ws (c :: cur) s'
  end.

(** [' '.join(ws)] *)
Fixpoint join_space (ws : list (list char)) : list char :=
  match ws with
  | [] => []
  | [w] => w
  | w :: ws' => w ++ 32%N :: join_space ws'
  end.

(** [' '.join(text.split())] *)
Definition normalize (s : list char) : list char :=
  join_space (split_ws [] s).

(** [int(ds)] for a string of decimal digits. *)
Definition int (ds : list char) : Z :=
  fold_left (fun acc c => (10 * acc + Z.of_N (digit_value c))%Z) ds 0%Z.

(** [s.startswith(prefix)] *)
Fixpoint startswith (prefix s : list char) : bool :=
  match prefix, s with
  | [], _ => true
  | c :: prefix', d :: s' => N.eqb c d && startswith prefix' s'
  | _ :: _, [] => false
  end.

(** [str(n)] for an integer, as an f-string formats it. *)
Definition decimal (n : Z) : list char :=
  of_string (NilZero.string_of_int (Z.to_int n)).

(** Truth value of a string: non-empty. *)
Definition nonempty (s : list char) : bool :=
  match s with [] => false | _ => true end.

End Text.

(** Character literals: ["("%c] is the code point of the character. *)
Definition char_of_bytes (bs : list Byte.byte) : option N :=
  match Text.of_string (string_of_list_byte bs) with
  | [c] => Some c
  | _ => None
  end.

Definition bytes_of_char (c : N) : option (list Byte.byte) :=
  if Text.in_range 33 126 c
  then option_map (fun b => [b]) (Byte.of_N c)
  else None.

Declare Scope codepoint_scope.
Delimit Scope codepoint_scope with c.
String Notation N char_of_bytes bytes_of_char : codepoint_scope.

(* ================================================================== *)
(** * The [re] module *)
(* ================================================================== *)

Module Re.
Import Text.

(** Regex syntax: character class, sequence, ordered alternative,
    greedy repetition, [^] and [$] (no MULTILINE flag). *)
Inductive regex :=
| Eps
| Cls (p : char -> bool)
| Cat (r1 r2 : regex)
| Alt (r1 r2 : regex)
| Star (r : regex)
| Bol
| Eol.

(** [r+], [r?] and a literal word. *)
Definition Plus (r : regex) : regex := Cat r (Star r).
Definition Opt (r : regex) : regex := Alt r Eps.
Definition Chr (c : char) : regex := Cls (is_char c).
Fixpoint Lit (w : list char) : regex :=
  match w with
  | [] => Eps
  | c :: w' => Cat (Chr c) (Lit w')
  end.

(** Greedy repetition of [body], then [k]: try one more iteration
    first, and keep it only if it consumes something.  [n] bounds the
    number of iterations and is the length of the input. *)
Definition star_loop {A}
    (body : nat -> list char -> (nat -> list char -> option A) -> option A)
    (k : nat -> list char -> option A)
  : nat -> nat -> list char -> option A :=
  fix loop (n : nat) (pos : nat) (s : list char) {struct n} : option A :=
    match n with
    | O => k pos s
    | S n' =>
        match body pos s
                (fun pos' s' =>
                   if (length s' <? length s)%nat
                   then loop n' pos' s' else None) with
        | Some a => Some a
        | None => k pos s
        end
    end.

(** Backtracking matcher in continuation-passing style.  [pos] is the
    index in the subject string of the first character of [s]; [k] is
    what remains to be matched.  The first success in priority order is
    returned. *)
Fixpoint exec {A} (r : regex) (pos : nat) (s : list char)
    (k : nat -> list char -> option A) {struct r} : option A :=
  match r with
  | Eps => k pos s
  | Cls p =>
      match s with
      | c :: s' => if p c then k (S pos) s' else None
      | [] => None
      end
  | Cat r1 r2 => exec r1 pos s (fun pos' s' => exec r2 pos' s' k)
  | Alt r1 r2 =>
      match exec r1 pos s k with
      | Some a => Some a
      | None => exec r2 pos s k
      end
  | Star r1 => star_loop (exec r1) k (length s) pos s
  | Bol => if (pos =? 0)%nat then k pos s else None
  | Eol =>
      match s with
      | [] => k pos s
      | [c] => if N.eqb c newline then k pos s else None
      | _ => None
      end
  end.

(** Length of the match of [r] at [pos], if any. *)
Definition match_len (r : regex) (pos : nat) (s : list char)
  : option nat :=
  exec r pos s (fun pos' _ => Some (pos' - pos)%nat).

(** [bool(re.match(r, s))] *)
Definition re_match (r : regex) (s : list char) : bool :=
  bool_decide (is_Some (match_len r 0 s)).

(** A pattern with one capturing group: [pre(grp)post]. *)
Record pattern := {
  pre : regex;
  grp : regex;
  post : regex;
}.

(** Text of the group and length of the whole match at [pos]. *)
Definition match_at (p : pattern) (pos : nat) (s : list char)
  : option (list char * nat) :=
  exec (pre p) pos s (fun p1 s1 =>
  exec (grp p) p1 s1 (fun p2 s2 =>
  exec (post p) p2 s2 (fun p3 _ =>
    Some (take (p2 - p1) s1, (p3 - pos)%nat)))).

(** [re.search(p, s).group(1)], scanning start positions left to right. *)
Fixpoint search_from (p : pattern) (pos : nat) (s : list char)
  : option (list char) :=
  match match_at p pos s with
  | Some (g, _) => Some g
  | None =>
      match s with
      | [] => None
      | _ :: s' => search_from p (S pos) s'
      end
  end.

Definition re_search (p : pattern) (s : list char) : option (list char) :=
  search_from p 0 s.

(** [re.sub(r, '', s)]: the text outside the non-overlapping matches
    found left to right.  [skip] counts the characters of the current
    match still to be passed.  The patterns used here match no empty
    string; an empty match is passed over. *)
Fixpoint sub_from (r : regex) (pos skip : nat) (s : list char)
  : list char :=
  match s with
  | [] => []
  | c :: s' =>
      match skip with
      | S n => sub_from r (S pos) n s'
      | O =>
          match match_len r pos s with
          | Some (S n) => sub_from r (S pos) n s'
          | _ => c :: sub_from r (S pos) 0 s'
          end
      end
  end.

Definition re_sub (r : regex) (s : list char) : list char :=
  sub_from r 0 0 s.

(** [re.split(p, s)] for a pattern with one group: the pieces between
    the matches, interleaved with the group texts.  [cur] is the piece
    being read, reversed. *)
Fixpoint split_from (p : pattern) (pos skip : nat) (cur s : list char)
  : list (list char) :=
  match s with
  | [] => [rev cur]
  | c :: s' =>
      match skip with
      | S n => split_from p (S pos) n cur s'
      | O =>
          match match_at p pos s with
          | Some (g, S n) => rev cur :: g :: split_from p (S pos) n [] s'
          | _ => split_from p (S pos) 0 (c :: cur) s'
          end
      end
  end.

Definition re_split (p : pattern) (s : list char) : list (list char) :=
  split_from p 0 0 [] s.

End Re.

(* ================================================================== *)
(** * [extract_scriptures.py] *)
(* ================================================================== *)

Module extract_scriptures.

(** ** [load_versification] *)

(** The [for i, book in enumerate(books)] scan: index of the first
    entry whose [id] is the anchor. *)
Fixpoint find_anchor (a : string) (bs : list BookEntry) : option nat :=
  match bs with
  | [] => None
  | b :: bs' => if String.eqb (id b) a then Some 0%nat
                else S <$> find_anchor a bs'
  end.

(** [books.insert(i, x)] for [0 <= i]; an index past the end appends. *)
Definition list_insert_at {A} (i : nat) (x : A) (l : list A) : list A :=
  take i l ++ x :: drop i l.

(** One round of the [for add_book in ...] loop. *)
Definition splice (bs : list BookEntry) (add_book : BookEntry)
  : list BookEntry :=
  if truthy (insert_after add_book) then
    match find_anchor (default "" (insert_after add_book)) bs with
    | Some i => list_insert_at (i + 1) add_book bs
    | None => bs ++ [add_book]
    end
  else bs ++ [add_book].

Definition merge_books (parent_books additional : list BookEntry)
  : list BookEntry :=
  fold_left splice additional parent_books.

Definition set_books (d : CanonDefinition) (bs : list BookEntry)
  : CanonDefinition :=
  {| canon_name := canon_name d; tradition := tradition d;
     extends := extends d; book_count := book_count d;
     books := Some bs; additional_books := additional_books d |}.

(** [depth] bounds the number of nested recursive calls. *)
Fixpoint load_versification (depth : nat)
    (dir : gmap string CanonDefinition) (name : string) : load_result :=
  match dir !! name with
  | None => FileNotFound name
  | Some data =>
      match extends data with
      | None => Loaded data
      | Some p =>
          match depth with
          | O => Diverges
          | S depth' =>
              match load_versification depth' dir p with
              | Loaded parent =>
                  Loaded (set_books data
                            (merge_books (default [] (books parent))
                               (default [] (additional_books data))))
              | FileNotFound m => FileNotFound m
              | Diverges => Diverges
              end
          end
      end
  end.

(** ** [get_all_books] *)

Definition sub_unit (book : BookEntry) (sub : SubBook) : BookUnit :=
  {| unit_id := sub_id sub;
     unit_name := default (sub_id sub) (sub_name sub);
     unit_chapters := default 1%Z (sub_chapters sub);
     unit_testament := default "OT" (testament book) |}.

(** Body of the [for book in ...] loop: the units appended for one entry. *)
Definition book_units (book : BookEntry) : list BookUnit :=
  if truthy (merge_with book) then []
  else
    match sub_books book with
    | Some subs => sub_unit book <$> subs
    | None =>
        match chapters book with
        | None => []
        | Some c =>
            [ {| unit_id := id book; unit_name := name book;
                 unit_chapters := c;
                 unit_testament := default "OT" (testament book) |} ]
        end
    end.

Definition get_all_books (versification : CanonDefinition)
  : list BookUnit :=
  concat (book_units <$> default [] (books versification)).

(** ** [is_placeholder_text] and [parse_diatheke_output] *)

Import Text Re.

Definition space_cls : regex := Cls isspace.
Definition digit_cls : regex := Cls isdigit.
Definition alpha_cls : regex := Cls isalpha.

(** [^(?:[1-4]\s+|I{1,3}V?\s+)?[A-Za-z]+(?:\s+(?:of\s+)?[A-Za-z]+)*\s+\d+:\d+:?$] *)
Definition placeholder_pattern : regex :=
  Cat Bol
 (Cat (Opt (Alt (Cat (Cls (in_range 49 52)) (Plus space_cls))
                (Cat (Chr "I"%c) (Cat (Opt (Cat (Chr "I"%c) (Opt (Chr "I"%c))))
                (Cat (Opt (Chr "V"%c)) (Plus space_cls))))))
 (Cat (Plus alpha_cls)
 (Cat (Star (Cat (Plus space_cls)
            (Cat (Opt (Cat (Lit ["o"; "f"]%c) (Plus space_cls)))
                 (Plus alpha_cls))))
 (Cat (Plus space_cls)
 (Cat (Plus digit_cls)
 (Cat (Chr ":"%c)
 (Cat (Plus digit_cls)
 (Cat (Opt (Chr ":"%c)) Eol)))))))).

Definition is_placeholder_text (text : list char) : bool :=
  let text := strip text in
  if (length text <? 5)%nat then true
  else re_match placeholder_pattern text.

(** [\n\([^)]+\)\s*$] *)
Definition attribution_pattern : regex :=
  Cat (Chr newline)
 (Cat (Chr "("%c)
 (Cat (Plus (Cls (fun c => negb (is_char ")"%c c))))
 (Cat (Chr ")"%c)
 (Cat (Star space_cls) Eol)))).

(** [(?:^|\n)([A-Za-z0-9 ]+\s+\d+:\d+):\s*] *)
Definition marker_pattern : pattern :=
  {| pre := Alt Bol (Chr newline);
     grp := Cat (Plus (Cls (fun c => isalpha c || in_range 48 57 c
                                    || is_char " "%c c)))
           (Cat (Plus space_cls)
           (Cat (Plus digit_cls)
           (Cat (Chr ":"%c) (Plus digit_cls))));
     post := Cat (Chr ":"%c) (Star space_cls) |}.

(** [:(\d+)$] *)
Definition verse_number_pattern : pattern :=
  {| pre := Chr ":"%c; grp := Plus digit_cls; post := Eol |}.

(** Body of the [for i in range(1, len(parts), 2)] loop for one
    reference and the piece that follows it. *)
Definition verse_of (ref text : list char) : list Verse :=
  let ref := strip ref in
  let text := strip text in
  match re_search verse_number_pattern ref with
  | Some digits =>
      match text with
      | [] => []
      | _ =>
          if is_placeholder_text text then []
          else [ {| number := int digits; text := normalize text |} ]
      end
  | None => []
  end.

(** The loop over [parts[1], parts[2]], [parts[3], parts[4]], ...; a
    last reference without a following piece is passed over. *)
Fixpoint verses_of (verse_of : list char -> list char -> list Verse)
    (pieces : list (list char)) : list Verse :=
  match pieces with
  | ref :: text :: rest => verse_of ref text ++ verses_of verse_of rest
  | _ => []
  end.

Definition parse_diatheke_output (output : list char)
    (book_id : string) (chapter : Z) : list Verse :=
  let output := re_sub attribution_pattern (strip output) in
  let parts := re_split marker_pattern output in
  verses_of verse_of (tail parts).

(** ** The extraction loops

    [run_diatheke] is the call of the retrieval tool: the standard
    output for a module and a reference, the empty string after a
    timeout or any other failure.  Progress messages are left out. *)

(** A value of the registry [SCRIPTURES]. *)
Record Meta := {
  meta_id : string;
  title : string;
  description : string;
  abbrev : string;
  language : string;
  versification : string;
  tags : list string;
}.

(** An entry of [metadata["bibles"]] ([features] is always empty). *)
Record BibleEntry := {
  entry_id : string;
  entry_title : string;
  entry_description : string;
  entry_abbrev : string;
  entry_language : string;
  entry_versification : string;
  entry_tags : list string;
  weight : Z;
}.

Section Extraction.
Variable run_diatheke : list char -> list char -> list char.

(** The test [not output.strip() or output.strip().startswith(f"({module})")]. *)
Definition no_content (module output : list char) : bool :=
  negb (nonempty (strip output))
  || startswith ("("%c :: module ++ [")"%c]) (strip output).

Definition check_book_exists (module book_name : list char) : bool :=
  let output :=
    run_diatheke module (book_name ++ Text.of_string " 1:1") in
  nonempty (strip output)
  && negb (startswith ("("%c :: module ++ [")"%c]) (strip output)).

(** The output for the first verse of chapter [ch], as
    [discover_chapters] asks for it. *)
Definition probe (module book_name : list char) (ch : Z) : list char :=
  run_diatheke module
    (book_name ++ " "%c :: decimal ch ++ Text.of_string ":1").

(** The [for ch in range(...)] loop of [discover_chapters]: the value
    returned from inside the loop, if any. *)
Fixpoint discover_loop (module book_name : list char) (chs : list Z)
  : option Z :=
  match chs with
  | [] => None
  | ch :: chs' =>
      if no_content module (probe module book_name ch) then Some (ch - 1)%Z
      else discover_loop module book_name chs'
  end.

Definition discover_chapters (module book_name : list char)
    (expected_chapters : Z) : Z :=
  default expected_chapters
    (discover_loop module book_name (seqZ expected_chapters 5)).

Definition get_chapter (module : list char) (book_id : string)
    (book_name : list char) (chapter : Z) : Chapter :=
  let reference := book_name ++ " "%c :: decimal chapter in
  let output := run_diatheke module reference in
  {| chapter_number := chapter;
     verses := parse_diatheke_output output book_id chapter |}.

(** The chapters of [range(1, num_chapters + 1)] that have verses. *)
Definition get_book (module : list char) (book : BookUnit) : Book :=
  {| book_id := unit_id book;
     book_name := unit_name book;
     book_testament := unit_testament book;
     book_chapters :=
       List.filter (fun chapter => bool_decide (verses chapter <> []))
         ((get_chapter module (unit_id book)
             (Text.of_string (unit_name book)))
            <$> seqZ 1 (unit_chapters book)) |}.

(** Body of the [for book in books] loop of [extract_scripture]. *)
Definition extracted_book (module : list char) (book : BookUnit)
  : list Book :=
  if check_book_exists module (Text.of_string (unit_name book)) then
    let extracted := get_book module book in
    match book_chapters extracted with
    | [] => []
    | _ => [extracted]
    end
  else [].

Definition extract_scripture (module : list char) (meta : Meta)
    (versification : CanonDefinition) : Content :=
  {| content := description meta;
     content_books :=
       concat (extracted_book module <$> get_all_books versification) |}.

(** What [main] holds when it comes to write its files: the entries of
    [metadata["bibles"]] and the dictionary [auxiliary["bibles"]]; or the
    exception of [load_versification], which [main] does not catch.
    [scriptures] is the registry in its order, [i] the weight of its
    first entry. *)
Inductive main_result :=
| Collected (metadata : list BibleEntry) (auxiliary : gmap string Content)
| Raised (e : load_result).

(** The entry [main] appends to [metadata["bibles"]]. *)
Definition metadata_entry (i : Z) (meta : Meta) : BibleEntry :=
  {| entry_id := meta_id meta;
     entry_title := title meta;
     entry_description := description meta;
     entry_abbrev := abbrev meta;
     entry_language := language meta;
     entry_versification := versification meta;
     entry_tags := tags meta;
     weight := i |}.

(** The test [test.strip()] of [main] on the module's first verse. *)
Definition available (module : list char) : bool :=
  nonempty (strip (run_diatheke module (Text.of_string "Gen 1:1"))).

Fixpoint main_loop (depth : nat) (dir : gmap string CanonDefinition)
    (scriptures : list (list char * Meta)) (i : Z)
    (metadata : list BibleEntry) (auxiliary : gmap string Content)
  : main_result :=
  match scriptures with
  | [] => Collected metadata auxiliary
  | (module, meta) :: rest =>
      if available module then
        match load_versification depth dir (versification meta) with
        | Loaded v =>
            main_loop depth dir rest (i + 1)
              (metadata ++ [metadata_entry i meta])
              (<[meta_id meta := extract_scripture module meta v]> auxiliary)
        | e => Raised e
        end
      else main_loop depth dir rest (i + 1) metadata auxiliary
  end.

Definition main (depth : nat) (dir : gmap string CanonDefinition)
    (scriptures : list (list char * Meta)) : main_result :=
  main_loop depth dir scriptures 1 [] ∅.

End Extraction.

End extract_scriptures.

(* ================================================================== *)
(** * [extract_bibles.py] *)
(* ================================================================== *)

Module extract_bibles.
Import Text Re.

(** KJV versification: [(id, name, testament, chapters)]. *)
Definition BOOKS : list (string * string * string * Z) :=
  [ ("Gen", "Genesis", "OT", 50); ("Exod", "Exodus", "OT", 40);
    ("Lev", "Leviticus", "OT", 27); ("Num", "Numbers", "OT", 36);
    ("Deut", "Deuteronomy", "OT", 34); ("Josh", "Joshua", "OT", 24);
    ("Judg", "Judges", "OT", 21); ("Ruth", "Ruth", "OT", 4);
    ("1Sam", "1 Samuel", "OT", 31); ("2Sam", "2 Samuel", "OT", 24);
    ("1Kgs", "1 Kings", "OT", 22); ("2Kgs", "2 Kings", "OT", 25);
    ("1Chr", "1 Chronicles", "OT", 29); ("2Chr", "2 Chronicles", "OT", 36);
    ("Ezra", "Ezra", "OT", 10); ("Neh", "Nehemiah", "OT", 13);
    ("Esth", "Esther", "OT", 10); ("Job", "Job", "OT", 42);
    ("Ps", "Psalms", "OT", 150); ("Prov", "Proverbs", "OT", 31);
    ("Eccl", "Ecclesiastes", "OT", 12); ("Song", "Song of Solomon", "OT", 8);
    ("Isa", "Isaiah", "OT", 66); ("Jer", "Jeremiah", "OT", 52);
    ("Lam", "Lamentations", "OT", 5); ("Ezek", "Ezekiel", "OT", 48);
    ("Dan", "Daniel", "OT", 12); ("Hos", "Hosea", "OT", 14);
    ("Joel", "Joel", "OT", 3); ("Amos", "Amos", "OT", 9);
    ("Obad", "Obadiah", "OT", 1); ("Jonah", "Jonah", "OT", 4);
    ("Mic", "Micah", "OT", 7); ("Nah", "Nahum", "OT", 3);
    ("Hab", "Habakkuk", "OT", 3); ("Zeph", "Zephaniah", "OT", 3);
    ("Hag", "Haggai", "OT", 2); ("Zech", "Zechariah", "OT", 14);
    ("Mal", "Malachi", "OT", 4);
    ("Matt", "Matthew", "NT", 28); ("Mark", "Mark", "NT", 16);
    ("Luke", "Luke", "NT", 24); ("John", "John", "NT", 21);
    ("Acts", "Acts", "NT", 28); ("Rom", "Romans", "NT", 16);
    ("1Cor", "1 Corinthians", "NT", 16); ("2Cor", "2 Corinthians", "NT", 13);
    ("Gal", "Galatians", "NT", 6); ("Eph", "Ephesians", "NT", 6);
    ("Phil", "Philippians", "NT", 4); ("Col", "Colossians", "NT", 4);
    ("1Thess", "1 Thessalonians", "NT", 5);
    ("2Thess", "2 Thessalonians", "NT", 3);
    ("1Tim", "1 Timothy", "NT", 6); ("2Tim", "2 Timothy", "NT", 4);
    ("Titus", "Titus", "NT", 3); ("Phlm", "Philemon", "NT", 1);
    ("Heb", "Hebrews", "NT", 13); ("Jas", "James", "NT", 5);
    ("1Pet", "1 Peter", "NT", 5); ("2Pet", "2 Peter", "NT", 3);
    ("1John", "1 John", "NT", 5); ("2John", "2 John", "NT", 1);
    ("3John", "3 John", "NT", 1); ("Jude", "Jude", "NT", 1);
    ("Rev", "Revelation", "NT", 22) ]%Z.

(** Loop body: as in [extract_scriptures] without the placeholder test. *)
Definition verse_of (ref text : list char) : list Verse :=
  let ref := strip ref in
  let text := strip text in
  match re_search extract_scriptures.verse_number_pattern ref with
  | Some digits =>
      match text with
      | [] => []
      | _ => [ {| number := int digits; text := normalize text |} ]
      end
  | None => []
  end.

Definition parse_diatheke_output (output : list char)
    (book_id : string) (chapter : Z) : list Verse :=
  let output :=
    re_sub extract_scriptures.attribution_pattern (strip output) in
  let parts := re_split extract_scriptures.marker_pattern output in
  extract_scriptures.verses_of verse_of (tail parts).

(** ** The extraction loops, over the fixed table *)

(** A value of the registry [MODULES]. *)
Record Meta := {
  meta_id : string;
  title : string;
  description : string;
  abbrev : string;
  language : string;
  tags : list string;
}.

(** An entry of [metadata["bibles"]] ([features] is always empty). *)
Record BibleEntry := {
  entry_id : string;
  entry_title : string;
  entry_description : string;
  entry_abbrev : string;
  entry_language : string;
  entry_tags : list string;
  weight : Z;
}.

Section Extraction.
Variable run_diatheke : list char -> list char -> list char.

Definition get_chapter (module : list char) (book_id : string)
    (book_name : list char) (chapter : Z) : Chapter :=
  let reference := book_name ++ " "%c :: decimal chapter in
  let output := run_diatheke module reference in
  {| chapter_number := chapter;
     verses := parse_diatheke_output output book_id chapter |}.

Definition get_book (module : list char) (book_id book_name testament : string)
    (num_chapters : Z) : Book :=
  {| book_id := book_id;
     book_name := book_name;
     book_testament := testament;
     book_chapters :=
       List.filter (fun chapter => bool_decide (verses chapter <> []))
         ((get_chapter module book_id (Text.of_string book_name))
            <$> seqZ 1 num_chapters) |}.

(** Body of the [for ... in BOOKS] loop of [extract_bible]. *)
Definition extracted_book (module : list char)
    (row : string * string * string * Z) : list Book :=
  let '(book_id, book_name, testament, num_chapters) := row in
  let book := get_book module book_id book_name testament num_chapters in
  match book_chapters book with
  | [] => []
  | _ => [book]
  end.

Definition extract_bible (module : list char) (meta : Meta) : Content :=
  {| content := description meta;
     content_books := concat (extracted_book module <$> BOOKS) |}.

(** The entry [main] appends to [metadata["bibles"]]. *)
Definition metadata_entry (i : Z) (meta : Meta) : BibleEntry :=
  {| entry_id := meta_id meta;
     entry_title := title meta;
     entry_description := description meta;
     entry_abbrev := abbrev meta;
     entry_language := language meta;
     entry_tags := tags meta;
     weight := i |}.

(** The test [test.strip()] of [main] on the module's first verse. *)
Definition available (module : list char) : bool :=
  nonempty (strip (run_diatheke module (Text.of_string "Gen 1:1"))).

(** The loop of [main] over the registry: what [metadata["bibles"]] and
    [auxiliary["bibles"]] hold when the files are written.  [modules]
    is the registry in its order, [i] the weight of its first entry. *)
Fixpoint main_loop (modules : list (list char * Meta)) (i : Z)
    (metadata : list BibleEntry) (auxiliary : gmap string Content)
  : list BibleEntry * gmap string Content :=
  match modules with
  | [] => (metadata, auxiliary)
  | (module, meta) :: rest =>
      if available module then
        main_loop rest (i + 1)
          (metadata ++ [metadata_entry i meta])
          (<[meta_id meta := extract_bible module meta]> auxiliary)
      else main_loop rest (i + 1) metadata auxiliary
  end.

Definition main (modules : list (list char * Meta))
  : list BibleEntry * gmap string Content :=
  main_loop modules 1 [] ∅.

End Extraction.

End extract_bibles.

(* ================================================================== *)
(** * The Protestant canon *)
(* ================================================================== *)

(** Modelled from the spec: the document [versifications/protestant.yaml]
    is not among the sources.  The spec and the tests give the canon 66
    books from Genesis (50 chapters) to Revelation (22 chapters); its
    entries are taken from the KJV table [BOOKS] of [extract_bibles.py],
    one plain entry per row. *)
Definition protestant : CanonDefinition :=
  {| canon_name := "Protestant"; tradition := "christian";
     extends := None; book_count := Some 66%Z;
     books := Some ((fun '(i, n, t, c) =>
                {| id := i; name := n; chapters := Some c;
                   sub_books := None; testament := Some t;
                   merge_with := None; insert_after := None |})
              <$> extract_bibles.BOOKS);
     additional_books := None |}.

Definition str (s : string) : list char := Text.of_string s.

(* ================================================================== *)
(** * Specification-side definitions *)
(* ================================================================== *)

(** What a regex matches, as a relation: from position [pos] with
    input [s], the regex can consume a prefix of [s] and leave [s'] at
    position [pos']. *)
Inductive Matches : Re.regex -> nat -> list char -> nat -> list char -> Prop :=
| M_Eps pos s : Matches Re.Eps pos s pos s
| M_Cls p c pos s :
    p c = true -> Matches (Re.Cls p) pos (c :: s) (S pos) s
| M_Cat r1 r2 pos s pos1 s1 pos2 s2 :
    Matches r1 pos s pos1 s1 -> Matches r2 pos1 s1 pos2 s2 ->
    Matches (Re.Cat r1 r2) pos s pos2 s2
| M_Alt_l r1 r2 pos s pos' s' :
    Matches r1 pos s pos' s' -> Matches (Re.Alt r1 r2) pos s pos' s'
| M_Alt_r r1 r2 pos s pos' s' :
    Matches r2 pos s pos' s' -> Matches (Re.Alt r1 r2) pos s pos' s'
| M_Star_stop r pos s : Matches (Re.Star r) pos s pos s
| M_Star_step r pos s pos1 s1 pos2 s2 :
    Matches r pos s pos1 s1 -> Matches (Re.Star r) pos1 s1 pos2 s2 ->
    Matches (Re.Star r) pos s pos2 s2
| M_Bol s : Matches Re.Bol 0 s 0 s
| M_Eol pos s :
    s = [] \/ s = [Text.newline] -> Matches Re.Eol pos s pos s.

(** The whole of [s] matches [r] as [re.match] sees it. *)
Definition matched_by (r : Re.regex) (s : list char) : Prop :=
  exists pos' s', Matches r 0 s pos' s'.

(** The references and bodies the parsers walk over: the pieces of the
    raw output after the first, two by two. *)
Fixpoint pairs (pieces : list (list char))
  : list (list char * list char) :=
  match pieces with
  | ref :: body :: rest => (ref, body) :: pairs rest
  | _ => []
  end.

Definition markers (output : list char) : list (list char * list char) :=
  pairs (tail (Re.re_split extract_scriptures.marker_pattern
                 (Re.re_sub extract_scriptures.attribution_pattern
                    (Text.strip output)))).

(** A module attribution on a line of its own: [(] [^)\n]+ [)]. *)
Definition attribution_line (s : list char) : Prop :=
  exists body,
    s = "("%c :: body ++ [")"%c] /\ body <> []
    /\ Forall (fun c => c <> ")"%c /\ c <> Text.newline) body.

(** One additional entry spliced into a book list: right after the
    first entry whose [id] is the entry's [insert_after], or at the end
    when [insert_after] is not given (missing or empty, as [truthy] has
    it) or when no entry of the list has that id. *)
Inductive Spliced (bs : list BookEntry) (add_book : BookEntry)
  : list BookEntry -> Prop :=
| spliced_after pre b post :
    truthy (insert_after add_book) = true ->
    bs = pre ++ b :: post ->
    Some (id b) = insert_after add_book ->
    Forall (fun x => Some (id x) <> insert_after add_book) pre ->
    Spliced bs add_book (pre ++ b :: add_book :: post)
| spliced_append :
    truthy (insert_after add_book) = false
    \/ Forall (fun x => Some (id x) <> insert_after add_book) bs ->
    Spliced bs add_book (bs ++ [add_book]).

(** The additional entries spliced one after the other, in declared order. *)
Inductive Merged : list BookEntry -> list BookEntry -> list BookEntry -> Prop :=
| merged_nil bs : Merged bs [] bs
| merged_cons bs add_book adds bs' bs'' :
    Spliced bs add_book bs' ->
    Merged bs' adds bs'' ->
    Merged bs (add_book :: adds) bs''.

(** The [extends] chain of [name] stays inside the directory and ends,
    after [n] steps, at a canon without [extends]. *)
Inductive resolves (dir : gmap string CanonDefinition)
  : string -> nat -> Prop :=
| resolves_root name data :
    dir !! name = Some data -> extends data = None ->
    resolves dir name 0
| resolves_child name data p n :
    dir !! name = Some data -> extends data = Some p ->
    resolves dir p n ->
    resolves dir name (S n).

(** The unit the flattener is said to emit for a sub-book when the
    sub-book's own [testament] takes precedence over the parent's. *)
Definition overriding_sub_unit (book : BookEntry) (sub : SubBook)
  : BookUnit :=
  {| unit_id := sub_id sub;
     unit_name := default (sub_id sub) (sub_name sub);
     unit_chapters := default 1%Z (sub_chapters sub);
     unit_testament :=
       default (default "OT" (testament book)) (sub_testament sub) |}.

(** The placeholder test as the description words it: an optional
    ordinal (1 to 4, or I to IV, then blanks) before the reference
    marker of the split, that is its group and the closing colon, over
    the whole trimmed body. *)
Definition described_placeholder_pattern : Re.regex :=
  Re.Cat Re.Bol
 (Re.Cat (Re.Opt (Re.Cat
            (Re.Alt (Re.Cls (Text.in_range 49 52))
            (Re.Alt (Re.Lit (str "IV"))
            (Re.Alt (Re.Lit (str "III"))
            (Re.Alt (Re.Lit (str "II")) (Re.Lit (str "I"))))))
            (Re.Plus extract_scriptures.space_cls)))
 (Re.Cat (Re.grp extract_scriptures.marker_pattern)
 (Re.Cat (Re.Chr ":"%c) Re.Eol))).

(* ================================================================== *)
(** * Notions used by the further properties *)
(* ================================================================== *)

(** [q] is [name] or one of the canons its [extends] chain goes through. *)
Inductive ancestor (dir : gmap string CanonDefinition)
  : string -> string -> Prop :=
| ancestor_self name : ancestor dir name name
| ancestor_parent name data p q :
    dir !! name = Some data -> extends data = Some p ->
    ancestor dir p q ->
    ancestor dir name q.

(** Words without blanks, joined by single spaces. *)
Definition single_spaced (s : list char) : Prop :=
  exists ws,
    s = Text.join_space ws
    /\ Forall (fun w => w <> [] /\ Forall (fun c => Text.isspace c = false) w) ws.

(** The verse a reference and its body give: the number after the last
    colon of the reference, the body trimmed and normalised. *)
Definition verse_at (rb : list char * list char) : Verse :=
  {| number :=
       Text.int (default []
         (Re.re_search extract_scriptures.verse_number_pattern
            (Text.strip rb.1)));
     text := Text.normalize (Text.strip rb.2) |}.

(** The registry entries that pass the availability test of [main],
    each with its position in the registry, counted from [i]. *)
Fixpoint available_entries
    (run_diatheke : list char -> list char -> list char)
    (scriptures : list (list char * extract_scriptures.Meta)) (i : Z)
  : list extract_scriptures.BibleEntry :=
  match scriptures with
  | [] => []
  | (module, meta) :: rest =>
      if extract_scriptures.available run_diatheke module
      then extract_scriptures.metadata_entry i meta
           :: available_entries run_diatheke rest (i + 1)
      else available_entries run_diatheke rest (i + 1)
  end.

(** The same for the registry of the baseline extractor. *)
Fixpoint available_modules
    (run_diatheke : list char -> list char -> list char)
    (modules : list (list char * extract_bibles.Meta)) (i : Z)
  : list extract_bibles.BibleEntry :=
  match modules with
  | [] => []
  | (module, meta) :: rest =>
      if extract_bibles.available run_diatheke module
      then extract_bibles.metadata_entry i meta
           :: available_modules run_diatheke rest (i + 1)
      else available_modules run_diatheke rest (i + 1)
  end.

(** Every available module of the registry names a versification that
    loads. *)
Definition all_load
    (run_diatheke : list char -> list char -> list char)
    (depth : nat) (dir : gmap string CanonDefinition)
    (scriptures : list (list char * extract_scriptures.Meta)) : Prop :=
  Forall (fun e =>
            extract_scriptures.available run_diatheke e.1 = true ->
            exists v,
              extract_scriptures.load_versification depth dir
                (extract_scriptures.versification e.2) = Loaded v)
    scriptures.

(** The book [extract_bible] asks for a row of the table. *)
Definition row_book
    (run_diatheke : list char -> list char -> list char)
    (module : list char) (row : string * string * string * Z) : Book :=
  extract_bibles.get_book run_diatheke module
    row.1.1.1 row.1.1.2 row.1.2 row.2.

(** ** Printed chapters *)


(** A line of chapter output as the retrieval tool prints it: book
    name, chapter, verse number and verse text. *)
Record Line := {
  line_book : list char;
  line_chapter : list char;
  line_verse : list char;
  line_text : list char;
}.

Definition reference (l : Line) : list char :=
  line_book l ++ " "%c :: line_chapter l ++ ":"%c :: line_verse l.







(* ================================================================== *)
(** * Sample documents *)
(* ================================================================== *)

(** A plain one-chapter entry. *)
Definition anchor_book (i : string) (after : option string) : BookEntry :=
  {| id := i; name := i; chapters := Some 1%Z; sub_books := None;
     testament := None; merge_with := None; insert_after := after |}.

(** A directory with a root canon, a canon that extends it, and a canon
    whose parent has no document. *)
Definition base_doc : CanonDefinition :=
  {| canon_name := "Base"; tradition := "christian"; extends := None;
     book_count := Some 3%Z;
     books := Some [anchor_book "Gen" None; anchor_book "Neh" None;
                    anchor_book "Esth" None];
     additional_books := None |}.

Definition wide_doc : CanonDefinition :=
  {| canon_name := "Wide"; tradition := "christian";
     extends := Some "base"; book_count := Some 6%Z; books := None;
     additional_books :=
       Some [anchor_book "Tob" (Some "Neh");
             anchor_book "Jdt" (Some "Tob");
             anchor_book "Bar" (Some "Lam")] |}.

Definition orphan_doc : CanonDefinition :=
  {| canon_name := "Orphan"; tradition := "christian";
     extends := Some "ghost"; book_count := None; books := None;
     additional_books := None |}.

Definition small_dir : gmap string CanonDefinition :=
  {[ "base" := base_doc; "wide" := wide_doc; "orphan" := orphan_doc ]}.

(** A composite entry in the manner of The Twelve; its second sub-book
    has neither name nor chapters and carries a testament of its own. *)
Definition hosea : SubBook :=
  {| sub_id := "Hos"; sub_name := Some "Hosea";
     sub_chapters := Some 14%Z; sub_testament := None |}.

Definition obadiah : SubBook :=
  {| sub_id := "Obad"; sub_name := None;
     sub_chapters := None; sub_testament := Some "NT" |}.

Definition twelve : BookEntry :=
  {| id := "Twelve"; name := "The Twelve"; chapters := None;
     sub_books := Some [hosea; obadiah];
     testament := Some "OT"; merge_with := None; insert_after := None |}.

Definition tanakh_like : CanonDefinition :=
  {| canon_name := "Tanakh"; tradition := "jewish"; extends := None;
     book_count := None;
     books := Some [anchor_book "Gen" None; twelve;
                    {| id := "EsthGr"; name := "Additions to Esther";
                       chapters := Some 6%Z; sub_books := None;
                       testament := Some "DC"; merge_with := Some "Esth";
                       insert_after := None |};
                    {| id := "Div"; name := "Writings"; chapters := None;
                       sub_books := None; testament := None;
                       merge_with := None; insert_after := None |}];
     additional_books := None |}.

(** A composite entry that is also merged into another book. *)
Definition merged_composite : BookEntry :=
  {| id := "DanGr"; name := "Additions to Daniel"; chapters := None;
     sub_books :=
       Some [ {| sub_id := "Sus"; sub_name := Some "Susanna";
                 sub_chapters := None; sub_testament := None |} ];
     testament := Some "DC"; merge_with := Some "Dan";
     insert_after := None |}.

Definition merged_composite_canon : CanonDefinition :=
  {| canon_name := "Sample"; tradition := "christian"; extends := None;
     book_count := None; books := Some [merged_composite];
     additional_books := None |}.

(** A canon that extends itself. *)
Definition loop_dir : gmap string CanonDefinition :=
  {[ "loop" :=
       {| canon_name := "Loop"; tradition := "christian";
          extends := Some "loop"; book_count := None; books := None;
          additional_books := None |} ]}.

(** A second level of inheritance on top of [small_dir]. *)
Definition wider_doc : CanonDefinition :=
  {| canon_name := "Wider"; tradition := "christian";
     extends := Some "wide"; book_count := Some 7%Z; books := None;
     additional_books := Some [anchor_book "Jub" (Some "Gen")] |}.

Definition deep_dir : gmap string CanonDefinition :=
  <["wider" := wider_doc]> small_dir.

(** What loading "wide" and "wider" returns. *)
Definition wide_loaded : CanonDefinition :=
  extract_scriptures.set_books wide_doc
    [anchor_book "Gen" None; anchor_book "Neh" None;
     anchor_book "Tob" (Some "Neh"); anchor_book "Jdt" (Some "Tob");
     anchor_book "Esth" None; anchor_book "Bar" (Some "Lam")].

Definition wider_loaded : CanonDefinition :=
  extract_scriptures.set_books wider_doc
    [anchor_book "Gen" None; anchor_book "Jub" (Some "Gen");
     anchor_book "Neh" None; anchor_book "Tob" (Some "Neh");
     anchor_book "Jdt" (Some "Tob"); anchor_book "Esth" None;
     anchor_book "Bar" (Some "Lam")].

(** A registry of two modules: "KJV" on the versification "base" and
    "DRC" on a versification without a document. *)
Definition kjv_meta : extract_scriptures.Meta :=
  {| extract_scriptures.meta_id := "kjv";
     extract_scriptures.title := "King James Version (1769)";
     extract_scriptures.description := "The Authorized Version of the Bible.";
     extract_scriptures.abbrev := "KJV";
     extract_scriptures.language := "en";
     extract_scriptures.versification := "base";
     extract_scriptures.tags := ["English"; "Protestant"] |}.

Definition drc_meta : extract_scriptures.Meta :=
  {| extract_scriptures.meta_id := "drc";
     extract_scriptures.title := "Douay-Rheims Bible";
     extract_scriptures.description := "English translation of the Vulgate.";
     extract_scriptures.abbrev := "DRB";
     extract_scriptures.language := "en";
     extract_scriptures.versification := "ghost";
     extract_scriptures.tags := ["English"; "Catholic"] |}.

(** Two entries of the registry [MODULES]. *)
Definition kjv_module : extract_bibles.Meta :=
  {| extract_bibles.meta_id := "kjv";
     extract_bibles.title := "King James Version (1769)";
     extract_bibles.description := "The Authorized Version of the Bible.";
     extract_bibles.abbrev := "KJV";
     extract_bibles.language := "en";
     extract_bibles.tags := ["English"; "Protestant"] |}.

Definition vulgate_module : extract_bibles.Meta :=
  {| extract_bibles.meta_id := "vulgate";
     extract_bibles.title := "Latin Vulgate";
     extract_bibles.description := "Jerome's 4th century Latin translation.";
     extract_bibles.abbrev := "VUL";
     extract_bibles.language := "la";
     extract_bibles.tags := ["Latin"; "Catholic"] |}.

(** A retrieval tool that has some text for every reference. *)
Definition talkative_tool (module reference : list char) : list char :=
  str "Genesis 1:1: In the beginning".

(** A retrieval tool that knows the module "KJV" only. *)
Definition kjv_tool (module reference : list char) : list char :=
  if bool_decide (module = str "KJV") then talkative_tool module reference
  else [].



(* ================================================================== *)
(** * The versification loader *)
(* ================================================================== *)

Section Loader.
Import extract_scriptures.

Lemma truthy_Some (o : option string) :
  truthy o = true -> exists a, o = Some a /\ a <> "".
Proof.
  destruct o as [a|]; simpl; [|discriminate].
  intros H. exists a. split; [reflexivity|].
  intros ->. discriminate.
Qed.

Lemma find_anchor_first a pre b post :
  id b = a -> Forall (fun x => id x <> a) pre ->
  find_anchor a (pre ++ b :: post) = Some (length pre).
Proof.
  intros Hb Hpre. induction Hpre as [|x pre Hx _ IH]; simpl.
  - apply String.eqb_eq in Hb. by rewrite Hb.
  - apply String.eqb_neq in Hx. by rewrite Hx, IH.
Qed.

Lemma find_anchor_Some a bs i :
  find_anchor a bs = Some i ->
  exists pre b post, bs = pre ++ b :: post /\ id b = a
    /\ Forall (fun x => id x <> a) pre /\ length pre = i.
Proof.
  revert i. induction bs as [|x bs IH]; intros i; simpl; [discriminate|].
  destruct (String.eqb (id x) a) eqn:E.
  - intros [= <-]. apply String.eqb_eq in E.
    exists [], x, bs. by repeat split.
  - destruct (find_anchor a bs) as [j|]; simpl; [|discriminate].
    intros [= <-]. destruct (IH j eq_refl) as (pre & b & post & -> & Hb & Hpre & Hl).
    apply String.eqb_neq in E.
    exists (x :: pre), b, post. repeat split; auto. simpl. by rewrite Hl.
Qed.

Lemma find_anchor_None a bs :
  find_anchor a bs = None -> Forall (fun x => id x <> a) bs.
Proof.
  induction bs as [|x bs IH]; simpl; [constructor|].
  destruct (String.eqb (id x) a) eqn:E; [discriminate|].
  destruct (find_anchor a bs); simpl; [discriminate|].
  intros _. constructor; [by apply String.eqb_neq | by apply IH].
Qed.

Lemma list_insert_at_after {A} (pre : list A) b x post :
  list_insert_at (length pre + 1) x (pre ++ b :: post)
  = pre ++ b :: x :: post.
Proof.
  unfold list_insert_at.
  replace (length pre + 1)%nat with (length (pre ++ [b])) by (rewrite length_app; simpl; lia).
  replace (pre ++ b :: post) with ((pre ++ [b]) ++ post) by (by rewrite <- app_assoc).
  rewrite take_app_length, drop_app_length. by rewrite <- app_assoc.
Qed.

(** Splicing after a found anchor. *)
Lemma splice_after pre b post add_book a :
  insert_after add_book = Some a -> a <> "" ->
  id b = a -> Forall (fun x => id x <> a) pre ->
  splice (pre ++ b :: post) add_book = pre ++ b :: add_book :: post.
Proof.
  intros Ha Hne Hb Hpre. unfold splice. rewrite Ha. simpl.
  apply String.eqb_neq in Hne. rewrite Hne. simpl.
  rewrite (find_anchor_first a pre b post Hb Hpre).
  apply list_insert_at_after.
Qed.

Lemma splice_Spliced bs add_book : Spliced bs add_book (splice bs add_book).
Proof.
  unfold splice. destruct (truthy (insert_after add_book)) eqn:T.
  - destruct (truthy_Some _ T) as (a & Ha & Hne). rewrite Ha. simpl.
    destruct (find_anchor a bs) as [i|] eqn:F.
    + destruct (find_anchor_Some _ _ _ F) as (pre & b & post & -> & Hb & Hpre & <-).
      rewrite list_insert_at_after.
      apply spliced_after; auto.
      * by rewrite Ha, Hb.
      * rewrite Ha. eapply Forall_impl; [exact Hpre|]. simpl. congruence.
    + apply spliced_append. right. rewrite Ha.
      eapply Forall_impl; [exact (find_anchor_None _ _ F)|]. simpl. congruence.
  - apply spliced_append. by left.
Qed.

Lemma Spliced_splice bs add_book bs' :
  Spliced bs add_book bs' -> bs' = splice bs add_book.
Proof.
  intros [pre b post T -> Hb Hpre | H].
  - destruct (truthy_Some _ T) as (a & Ha & Hne).
    symmetry. apply (splice_after _ _ _ _ a); auto.
    + rewrite Ha in Hb. congruence.
    + eapply Forall_impl; [exact Hpre|]. simpl. rewrite Ha. congruence.
  - unfold splice. destruct (truthy (insert_after add_book)) eqn:T; [|done].
    destruct H as [H|H]; [discriminate|].
    destruct (truthy_Some _ T) as (a & Ha & Hne). rewrite Ha. simpl.
    destruct (find_anchor a bs) as [i|] eqn:F; [|done].
    destruct (find_anchor_Some _ _ _ F) as (pre & b & post & -> & Hb & _).
    apply Forall_app in H as [_ H]. apply Forall_cons in H as [H _].
    rewrite Ha, Hb in H. congruence.
Qed.

Lemma merge_books_Merged bs adds : Merged bs adds (merge_books bs adds).
Proof.
  revert bs. induction adds as [|add_book adds IH]; intros bs; simpl.
  - constructor.
  - econstructor; [apply splice_Spliced | apply IH].
Qed.

Lemma Merged_merge_books bs adds bs' :
  Merged bs adds bs' -> bs' = merge_books bs adds.
Proof.
  induction 1 as [|bs add_book adds bs1 bs2 Hs _ IH]; [done|].
  simpl. by rewrite <- (Spliced_splice _ _ _ Hs).
Qed.

End Loader.

Section Merging.
Import extract_scriptures.

Lemma merge_books_app bs l1 l2 :
  merge_books bs (l1 ++ l2) = merge_books (merge_books bs l1) l2.
Proof. apply fold_left_app. Qed.

(** A splice puts the new entry somewhere into the list and moves
    nothing else. *)
Lemma splice_inserts bs add_book :
  exists l r, bs = l ++ r /\ splice bs add_book = l ++ add_book :: r.
Proof.
  destruct (splice_Spliced bs add_book) as [pre b post _ -> _ _ | _].
  - exists (pre ++ [b]), post. by rewrite <- !app_assoc.
  - exists bs, []. by rewrite app_nil_r.
Qed.

Lemma sublist_splice (k bs : list BookEntry) add_book :
  k `sublist_of` bs -> k `sublist_of` splice bs add_book.
Proof.
  intros H. destruct (splice_inserts bs add_book) as (l & r & -> & ->).
  apply sublist_app_r in H as (k1 & k2 & -> & H1 & H2).
  apply sublist_app; [done|]. by apply sublist_cons.
Qed.

Lemma sublist_merge_books (k bs : list BookEntry) adds :
  k `sublist_of` bs -> k `sublist_of` merge_books bs adds.
Proof.
  revert bs. induction adds as [|x adds IH]; intros bs H; simpl; [done|].
  apply IH. by apply sublist_splice.
Qed.

(** With the anchor somewhere in the list, the first entry carrying it
    is found. *)
Lemma find_anchor_present a (bs : list BookEntry) x :
  x ∈ bs -> id x = a ->
  exists pre b post, bs = pre ++ b :: post /\ id b = a
    /\ Forall (fun y => id y <> a) pre.
Proof.
  intros Hin Hx. destruct (find_anchor a bs) as [i|] eqn:F.
  - destruct (find_anchor_Some _ _ _ F) as (pre & b & post & ? & ? & ? & _).
    by exists pre, b, post.
  - apply find_anchor_None in F. rewrite Forall_forall in F.
    by destruct (F x Hin).
Qed.

(** An entry that follows an entry with the anchor id also follows the
    first entry with that id. *)
Lemma after_first_anchor a pre b post k1 x k2 :
  pre ++ b :: post = k1 ++ x :: k2 ->
  id x = a -> Forall (fun y => id y <> a) pre ->
  k2 `sublist_of` post.
Proof.
  intros E Hx Hpre. apply app_eq_inv in E as [(k & -> & E) | (k & -> & E)].
  - destruct k as [|y k]; simpl in E.
    + injection E as _ ->. done.
    + injection E as <- _. apply Forall_app in Hpre as [_ Hpre].
      apply Forall_cons in Hpre as [Hpre _]. done.
  - destruct k as [|y k]; simpl in E.
    + injection E as _ ->. done.
    + injection E as _ ->. by apply sublist_inserts_l, sublist_cons.
Qed.

Lemma splice_before_earlier a (bs : list BookEntry) x A C :
  a <> "" -> insert_after C = Some a -> id x = a ->
  [x; A] `sublist_of` bs ->
  [C; A] `sublist_of` splice bs C.
Proof.
  intros Hne HC Hx H.
  apply sublist_cons_l in H as (k1 & k2 & -> & HA).
  destruct (find_anchor_present a (k1 ++ x :: k2) x) as (pre & b & post & E & Hb & Hpre);
    [set_solver | done |].
  rewrite E. rewrite (splice_after pre b post C a); auto.
  apply sublist_inserts_l, sublist_cons, sublist_skip.
  etrans; [exact HA|]. by eapply after_first_anchor.
Qed.

End Merging.

(** C1. A canon that declares [extends] loads as the child document
    with [books] replaced by the parent's resolved books into which the
    child's [additional_books] are spliced in declared order: each one
    right after the first entry whose [id] is its [insert_after], or at
    the end when [insert_after] is missing (or empty) or names no entry
    of the list.  The [books] of the returned definition are that merged
    list, the merged list is the only one the description allows, and
    the other fields are the child's own. *)
Theorem load_versification_merges_additional_books
    (depth : nat) (dir : gmap string CanonDefinition) (name p : string)
    (data parent : CanonDefinition) :
  dir !! name = Some data ->
  extends data = Some p ->
  extract_scriptures.load_versification depth dir p = Loaded parent ->
  exists d merged,
    extract_scriptures.load_versification (S depth) dir name = Loaded d
    /\ books d = Some merged
    /\ Merged (default [] (books parent))
              (default [] (additional_books data)) merged
    /\ (forall merged',
          Merged (default [] (books parent))
                 (default [] (additional_books data)) merged' ->
          merged' = merged)
    /\ canon_name d = canon_name data
    /\ tradition d = tradition data
    /\ extends d = extends data
    /\ book_count d = book_count data
    /\ additional_books d = additional_books data.
Proof.
  intros Hdir Hext Hpar.
  exists (extract_scriptures.set_books data
            (extract_scriptures.merge_books (default [] (books parent))
               (default [] (additional_books data)))),
         (extract_scriptures.merge_books (default [] (books parent))
            (default [] (additional_books data))).
  split; [|split; [|split; [|split]]].
  - simpl. by rewrite Hdir, Hext, Hpar.
  - reflexivity.
  - apply merge_books_Merged.
  - apply Merged_merge_books.
  - by repeat split.
Qed.

(** C2. Entries of [additional_books] that name the same anchor are
    each put right after the anchor: a run of them ends up behind the
    anchor in reverse declared order, and of any two of them the later
    one stands before the earlier one in the merged list. *)
Theorem same_anchor_entries_reversed (a : string) :
  a <> "" ->
  (forall pre b post adds,
      id b = a -> Forall (fun x => id x <> a) pre ->
      Forall (fun x => insert_after x = Some a) adds ->
      extract_scriptures.merge_books (pre ++ b :: post) adds
      = pre ++ b :: rev adds ++ post)
  /\ (forall parent l1 A l2 C l3 x,
      insert_after A = Some a -> insert_after C = Some a ->
      x ∈ extract_scriptures.merge_books parent l1 -> id x = a ->
      [C; A] `sublist_of`
        extract_scriptures.merge_books parent (l1 ++ A :: l2 ++ C :: l3)).
Proof.
  intros Hne. split.
  - intros pre b post adds Hb Hpre Hadds. revert post.
    induction Hadds as [|A adds HA _ IH]; intros post; simpl; [done|].
    rewrite (splice_after pre b post A a); auto.
    rewrite IH. by rewrite <- app_assoc.
  - intros parent l1 A l2 C l3 x HA HC Hin Hx.
    rewrite merge_books_app. simpl.
    destruct (find_anchor_present a _ x Hin Hx) as (pre & b & post & E & Hb & Hpre).
    rewrite E, (splice_after pre b post A a); auto.
    rewrite merge_books_app. simpl.
    apply sublist_merge_books.
    apply (splice_before_earlier a _ b); auto.
    apply sublist_merge_books.
    apply sublist_inserts_l, sublist_skip, sublist_skip, sublist_nil_l.
Qed.

(** Tobit and Judith both after Nehemiah: Judith, declared later, comes
    first, also when Baruch stands between them in the declaration. *)
Lemma same_anchor_entries_reversed_witness :
  extract_scriptures.merge_books
    [anchor_book "Gen" None; anchor_book "Neh" None; anchor_book "Esth" None]
    [anchor_book "Tob" (Some "Neh"); anchor_book "Jdt" (Some "Neh")]
  = [anchor_book "Gen" None; anchor_book "Neh" None;
     anchor_book "Jdt" (Some "Neh"); anchor_book "Tob" (Some "Neh");
     anchor_book "Esth" None]
  /\ [anchor_book "Jdt" (Some "Neh"); anchor_book "Tob" (Some "Neh")]
     `sublist_of`
     extract_scriptures.merge_books
       [anchor_book "Gen" None; anchor_book "Neh" None;
        anchor_book "Esth" None]
       ([] ++ anchor_book "Tob" (Some "Neh")
           :: [anchor_book "Bar" (Some "Lam")]
           ++ anchor_book "Jdt" (Some "Neh") :: []).
Proof.
  assert (Hne : "Neh" <> "") by discriminate.
  split.
  - apply (proj1 (same_anchor_entries_reversed "Neh" Hne)
             [anchor_book "Gen" None] (anchor_book "Neh" None)
             [anchor_book "Esth" None]
             [anchor_book "Tob" (Some "Neh"); anchor_book "Jdt" (Some "Neh")]).
    + reflexivity.
    + repeat constructor. discriminate.
    + repeat constructor.
  - apply (proj2 (same_anchor_entries_reversed "Neh" Hne)
             [anchor_book "Gen" None; anchor_book "Neh" None;
              anchor_book "Esth" None]
             [] (anchor_book "Tob" (Some "Neh"))
             [anchor_book "Bar" (Some "Lam")]
             (anchor_book "Jdt" (Some "Neh")) []
             (anchor_book "Neh" None)).
    + reflexivity.
    + reflexivity.
    + apply list_elem_of_further, list_elem_of_here.
    + reflexivity.
Defined.

(** The canon "wide" extends "base": Tobit after Nehemiah, Judith after
    Tobit, Baruch at the end for want of its anchor. *)
Lemma load_versification_merges_additional_books_witness :
  exists d,
    extract_scriptures.load_versification 1 small_dir "wide" = Loaded d
    /\ books d
       = Some [anchor_book "Gen" None; anchor_book "Neh" None;
               anchor_book "Tob" (Some "Neh"); anchor_book "Jdt" (Some "Tob");
               anchor_book "Esth" None; anchor_book "Bar" (Some "Lam")]
    /\ canon_name d = canon_name wide_doc
    /\ additional_books d = additional_books wide_doc.
Proof.
  destruct (load_versification_merges_additional_books 0 small_dir
              "wide" "base" wide_doc base_doc)
    as (d & merged & H & Hb & _ & Huniq & Hn & _ & _ & _ & Ha).
  - vm_compute. reflexivity.
  - reflexivity.
  - vm_compute. reflexivity.
  - exists d. split; [exact H|]. split; [|by split].
    rewrite Hb. f_equal. symmetry. apply Huniq.
    apply merge_books_Merged.
Defined.

(** An empty [insert_after] counts as none given: the entry is appended
    even where an entry with the empty id exists. *)
Example splice_empty_insert_after :
  extract_scriptures.splice
    [anchor_book "" None; anchor_book "Gen" None] (anchor_book "Tob" (Some ""))
  = [anchor_book "" None; anchor_book "Gen" None; anchor_book "Tob" (Some "")].
Proof. reflexivity. Qed.

Example load_wide_books :
  match extract_scriptures.load_versification 1 small_dir "wide" with
  | Loaded d => option_map (map id) (books d)
  | _ => None
  end = Some ["Gen"; "Neh"; "Tob"; "Jdt"; "Esth"; "Bar"].
Proof. vm_compute. reflexivity. Qed.

(* ================================================================== *)
(** * Missing documents *)
(* ================================================================== *)

Section NotFound.
Import extract_scriptures.

Lemma load_versification_resolves dir name n :
  resolves dir name n ->
  forall depth, (n <= depth)%nat ->
  exists d, load_versification depth dir name = Loaded d.
Proof.
  induction 1 as [name data Hd He | name data p n Hd He _ IH]; intros depth Hle.
  - exists data. destruct depth; simpl; by rewrite Hd, He.
  - destruct depth as [|depth]; [lia|].
    destruct (IH depth) as [parent Hp]; [lia|].
    eexists. simpl. by rewrite Hd, He, Hp.
Qed.

(** More depth than needed changes nothing. *)
Lemma load_versification_depth dir name depth d :
  load_versification depth dir name = Loaded d ->
  forall depth', (depth <= depth')%nat ->
  load_versification depth' dir name = Loaded d.
Proof.
  revert name d. induction depth as [|depth IH]; intros name d H depth' Hle.
  - destruct depth'; simpl in *; destruct (dir !! name) as [data|]; try done;
      by destruct (extends data).
  - destruct depth' as [|depth']; [lia|]. simpl in *.
    destruct (dir !! name) as [data|]; [|done].
    destruct (extends data) as [p|]; [|done].
    destruct (load_versification depth dir p) as [parent| |] eqn:E; try done.
    by rewrite (IH p parent E depth') by lia.
Qed.

End NotFound.

(** C6, counterexample. The document of "orphan" exists, yet loading
    it raises the not-found error, for the parent it extends, and
    returns no definition. *)
Lemma load_existing_name_not_found :
  is_Some (small_dir !! "orphan")
  /\ extract_scriptures.load_versification 1 small_dir "orphan"
     = FileNotFound "ghost"
  /\ extract_scriptures.load_versification 8 small_dir "orphan"
     = FileNotFound "ghost".
Proof.
  split; [by eexists; vm_compute|].
  split; vm_compute; reflexivity.
Qed.

(** C6, as the code has it. A name without a document fails with the
    not-found error for that name and returns no definition; so does a
    name whose parent fails that way.  A name whose [extends] chain
    stays inside the directory and ends at a canon without [extends]
    returns a definition. *)
Theorem load_versification_not_found
    (depth : nat) (dir : gmap string CanonDefinition) (name : string) :
  (dir !! name = None ->
     extract_scriptures.load_versification depth dir name
     = FileNotFound name)
  /\ (forall data p m,
        dir !! name = Some data -> extends data = Some p ->
        extract_scriptures.load_versification depth dir p = FileNotFound m ->
        extract_scriptures.load_versification (S depth) dir name
        = FileNotFound m)
  /\ (forall n, resolves dir name n -> (n <= depth)%nat ->
        exists d, extract_scriptures.load_versification depth dir name
                  = Loaded d).
Proof.
  split; [|split].
  - intros H. destruct depth; simpl; by rewrite H.
  - intros data p m Hd He Hp. simpl. by rewrite Hd, He, Hp.
  - intros n Hr Hle. by eapply load_versification_resolves.
Qed.

(** A missing name, a missing parent, and a chain that resolves. *)
Lemma load_versification_not_found_witness :
  extract_scriptures.load_versification 3 small_dir "ghost"
    = FileNotFound "ghost"
  /\ extract_scriptures.load_versification 1 small_dir "orphan"
    = FileNotFound "ghost"
  /\ exists d, extract_scriptures.load_versification 3 small_dir "wide"
               = Loaded d.
Proof.
  split; [|split].
  - apply (proj1 (load_versification_not_found 3 small_dir "ghost")).
    vm_compute. reflexivity.
  - eapply (proj1 (proj2 (load_versification_not_found 0 small_dir "orphan"))).
    + vm_compute. reflexivity.
    + reflexivity.
    + vm_compute. reflexivity.
  - apply (proj2 (proj2 (load_versification_not_found 3 small_dir "wide")) 1%nat);
      [|lia].
    eapply resolves_child; [vm_compute; reflexivity | reflexivity |].
    eapply resolves_root; [vm_compute; reflexivity | reflexivity].
Defined.

(* ================================================================== *)
(** * The book list flattener *)
(* ================================================================== *)

Section Flattener.
Import extract_scriptures.

Lemma get_all_books_split v pre b post :
  books v = Some (pre ++ b :: post) ->
  get_all_books v
  = concat (book_units <$> pre) ++ book_units b
    ++ concat (book_units <$> post).
Proof.
  intros H. unfold get_all_books. rewrite H. simpl.
  by rewrite fmap_app, concat_app, fmap_cons, concat_cons.
Qed.

Lemma elem_of_get_all_books v u :
  u ∈ get_all_books v <->
  exists b, b ∈ default [] (books v) /\ u ∈ book_units b.
Proof.
  unfold get_all_books.
  induction (default [] (books v)) as [|x bs IH]; simpl.
  - split; [by intros ?%elem_of_nil | by intros (b & ?%elem_of_nil & _)].
  - rewrite elem_of_app, IH. split.
    + intros [H | (b & Hb & Hu)].
      * exists x. split; [apply list_elem_of_here | done].
      * exists b. split; [by apply list_elem_of_further | done].
    + intros (b & Hb & Hu). apply elem_of_cons in Hb as [-> | Hb]; eauto.
Qed.

Lemma book_units_composite b subs :
  truthy (merge_with b) = false -> sub_books b = Some subs ->
  book_units b = sub_unit b <$> subs.
Proof. intros Hm Hs. unfold book_units. by rewrite Hm, Hs. Qed.

End Flattener.

(** C3. A unit of the flattened list always comes from an entry whose
    [merge_with] is not set, and it is either the unit of one of the
    entry's [sub_books], or the unit of a plain entry that has a
    [chapters] count; every such unit is in the list.  So an entry with
    [merge_with], and a plain entry without [chapters], contribute
    nothing, and a composite entry contributes its sub-books only. *)
Theorem get_all_books_units (v : CanonDefinition) (u : BookUnit) :
  u ∈ extract_scriptures.get_all_books v <->
  exists b, b ∈ default [] (books v)
    /\ truthy (merge_with b) = false
    /\ ((exists subs sub,
           sub_books b = Some subs /\ sub ∈ subs
           /\ u = {| unit_id := sub_id sub;
                     unit_name := default (sub_id sub) (sub_name sub);
                     unit_chapters := default 1%Z (sub_chapters sub);
                     unit_testament := default "OT" (testament b) |})
        \/ (exists c,
           sub_books b = None /\ chapters b = Some c
           /\ u = {| unit_id := id b; unit_name := name b;
                     unit_chapters := c;
                     unit_testament := default "OT" (testament b) |})).
Proof.
  rewrite elem_of_get_all_books. split.
  - intros (b & Hb & Hu). exists b. split; [done|].
    unfold extract_scriptures.book_units in Hu.
    destruct (truthy (merge_with b)); [by apply elem_of_nil in Hu|].
    split; [done|].
    destruct (sub_books b) as [subs|].
    + left. apply list_elem_of_fmap in Hu as (sub & -> & Hsub).
      by exists subs, sub.
    + right. destruct (chapters b) as [c|]; [|by apply elem_of_nil in Hu].
      apply list_elem_of_singleton in Hu. by exists c.
  - intros (b & Hb & Hm & H). exists b. split; [done|].
    unfold extract_scriptures.book_units. rewrite Hm.
    destruct H as [(subs & sub & -> & Hsub & ->) | (c & -> & -> & ->)].
    + apply list_elem_of_fmap. by exists sub.
    + by apply list_elem_of_singleton.
Qed.

Example get_all_books_tanakh_like :
  extract_scriptures.get_all_books tanakh_like
  = [ {| unit_id := "Gen"; unit_name := "Gen"; unit_chapters := 1;
         unit_testament := "OT" |};
      {| unit_id := "Hos"; unit_name := "Hosea"; unit_chapters := 14;
         unit_testament := "OT" |};
      {| unit_id := "Obad"; unit_name := "Obad"; unit_chapters := 1;
         unit_testament := "OT" |} ].
Proof. reflexivity. Qed.

(** An empty [merge_with] counts as not set: the entry is flattened. *)
Example book_units_empty_merge_with :
  extract_scriptures.book_units
    {| id := "Esth"; name := "Esther"; chapters := Some 10%Z;
       sub_books := None; testament := None; merge_with := Some "";
       insert_after := None |}
  = [ {| unit_id := "Esth"; unit_name := "Esther"; unit_chapters := 10;
         unit_testament := "OT" |} ].
Proof. reflexivity. Qed.

(** C5, counterexample. The sub-book "Obad" carries its own testament
    "NT"; the emitted unit has the parent's testament "OT", not the
    overriding one. *)
Lemma sub_book_testament_not_overriding :
  twelve ∈ default [] (books tanakh_like)
  /\ sub_books twelve = Some [hosea; obadiah]
  /\ testament twelve = Some "OT"
  /\ sub_testament obadiah = Some "NT"
  /\ overriding_sub_unit twelve obadiah
     = {| unit_id := "Obad"; unit_name := "Obad"; unit_chapters := 1;
          unit_testament := "NT" |}
  /\ (overriding_sub_unit twelve obadiah
       ∉ extract_scriptures.get_all_books tanakh_like)
  /\ extract_scriptures.get_all_books tanakh_like
     = [ {| unit_id := "Gen"; unit_name := "Gen"; unit_chapters := 1;
            unit_testament := "OT" |};
         {| unit_id := "Hos"; unit_name := "Hosea"; unit_chapters := 14;
            unit_testament := "OT" |};
         {| unit_id := "Obad"; unit_name := "Obad"; unit_chapters := 1;
            unit_testament := "OT" |} ].
Proof.
  split; [apply list_elem_of_further, list_elem_of_here|].
  do 4 (split; [reflexivity|]). split; [|reflexivity].
  vm_compute. intros H.
  repeat (apply elem_of_cons in H as [H|H]; [discriminate H|]).
  by apply elem_of_nil in H.
Qed.

(** C5, as the code has it. An entry with [sub_books] whose
    [merge_with] is not set contributes, at its place in the list, one
    unit per sub-book in order; each has the sub-book's [id], its [name]
    or else its [id], its [chapters] or else 1, and the testament of the
    parent entry or else "OT", whatever testament the sub-book has. *)
Theorem get_all_books_sub_books
    (v : CanonDefinition) (pre post : list BookEntry) (b : BookEntry)
    (subs : list SubBook) :
  books v = Some (pre ++ b :: post) ->
  truthy (merge_with b) = false ->
  sub_books b = Some subs ->
  extract_scriptures.get_all_books v
  = extract_scriptures.get_all_books (extract_scriptures.set_books v pre)
    ++ ((fun sub =>
           {| unit_id := sub_id sub;
              unit_name := default (sub_id sub) (sub_name sub);
              unit_chapters := default 1%Z (sub_chapters sub);
              unit_testament := default "OT" (testament b) |}) <$> subs)
    ++ extract_scriptures.get_all_books (extract_scriptures.set_books v post).
Proof.
  intros Hv Hm Hs. rewrite (get_all_books_split v pre b post Hv).
  by rewrite (book_units_composite b subs Hm Hs).
Qed.

(** The Twelve at its place between Genesis and the entries after it. *)
Lemma get_all_books_sub_books_witness :
  extract_scriptures.get_all_books tanakh_like
  = extract_scriptures.get_all_books
      (extract_scriptures.set_books tanakh_like [anchor_book "Gen" None])
    ++ [ {| unit_id := "Hos"; unit_name := "Hosea"; unit_chapters := 14;
            unit_testament := "OT" |};
         {| unit_id := "Obad"; unit_name := "Obad"; unit_chapters := 1;
            unit_testament := "OT" |} ]
    ++ extract_scriptures.get_all_books
         (extract_scriptures.set_books tanakh_like
            (drop 2 (default [] (books tanakh_like)))).
Proof.
  apply (get_all_books_sub_books tanakh_like [anchor_book "Gen" None]
           (drop 2 (default [] (books tanakh_like))) twelve
           [hosea; obadiah]); reflexivity.
Defined.

(** C10, counterexample. "DanGr" is a composite entry and its sub-book
    "Sus" has no [chapters]; the entry has [merge_with], so it is passed
    over whole and "Sus" is not emitted. *)
Lemma merged_composite_sub_book_skipped :
  sub_books merged_composite
  = Some [ {| sub_id := "Sus"; sub_name := Some "Susanna";
              sub_chapters := None; sub_testament := None |} ]
  /\ merged_composite ∈ default [] (books merged_composite_canon)
  /\ extract_scriptures.get_all_books merged_composite_canon = [].
Proof.
  split; [reflexivity|]. split; [apply list_elem_of_here | reflexivity].
Qed.

(** C10, as the code has it. A sub-book without a [chapters] key is
    emitted, with chapter count 1, for every composite entry whose
    [merge_with] is not set. *)
Theorem get_all_books_sub_book_default_chapters
    (v : CanonDefinition) (b : BookEntry) (subs : list SubBook)
    (sub : SubBook) :
  b ∈ default [] (books v) ->
  truthy (merge_with b) = false ->
  sub_books b = Some subs ->
  sub ∈ subs ->
  sub_chapters sub = None ->
  {| unit_id := sub_id sub;
     unit_name := default (sub_id sub) (sub_name sub);
     unit_chapters := 1;
     unit_testament := default "OT" (testament b) |}
  ∈ extract_scriptures.get_all_books v.
Proof.
  intros Hb Hm Hs Hsub Hc. apply elem_of_get_all_books.
  exists b. split; [done|].
  rewrite (book_units_composite b subs Hm Hs).
  apply list_elem_of_fmap. exists sub. split; [|done].
  unfold extract_scriptures.sub_unit. by rewrite Hc.
Qed.

(** The sub-book "Obad" of The Twelve has no chapter count and gets 1. *)
Lemma get_all_books_sub_book_default_chapters_witness :
  {| unit_id := "Obad"; unit_name := "Obad"; unit_chapters := 1;
     unit_testament := "OT" |}
  ∈ extract_scriptures.get_all_books tanakh_like.
Proof.
  apply (get_all_books_sub_book_default_chapters tanakh_like twelve
           [hosea; obadiah] obadiah).
  - apply list_elem_of_further, list_elem_of_here.
  - reflexivity.
  - reflexivity.
  - apply list_elem_of_further, list_elem_of_here.
  - reflexivity.
Defined.

(** C8. The flattened Protestant canon has 66 units, from Genesis
    ("Gen", 50 chapters) to Revelation ("Rev", 22 chapters), in the order
    of the book table, which the baseline extractor walks as it is. *)
Theorem get_all_books_protestant :
  length (extract_scriptures.get_all_books protestant) = 66%nat
  /\ head (extract_scriptures.get_all_books protestant)
     = Some {| unit_id := "Gen"; unit_name := "Genesis";
               unit_chapters := 50; unit_testament := "OT" |}
  /\ last (extract_scriptures.get_all_books protestant)
     = Some {| unit_id := "Rev"; unit_name := "Revelation";
               unit_chapters := 22; unit_testament := "NT" |}
  /\ ((fun u => (unit_id u, unit_name u, unit_testament u, unit_chapters u))
        <$> extract_scriptures.get_all_books protestant)
     = extract_bibles.BOOKS
  /\ length extract_bibles.BOOKS = 66%nat.
Proof. repeat split; vm_compute; reflexivity. Qed.

(* ================================================================== *)
(** * The matcher against the relation *)
(* ================================================================== *)

Section Matcher.
Import Text Re.

(** A match consumes a prefix and advances the position by its length. *)
Lemma Matches_prefix r pos s pos' s' :
  Matches r pos s pos' s' ->
  exists w, s = w ++ s' /\ pos' = (pos + length w)%nat.
Proof.
  induction 1 as
    [pos s | p c pos s Hp
    | r1 r2 pos s pos1 s1 pos2 s2 _ IH1 _ IH2
    | r1 r2 pos s pos' s' _ IH | r1 r2 pos s pos' s' _ IH
    | r pos s
    | r pos s pos1 s1 pos2 s2 _ IH1 _ IH2
    | s | pos s _];
    try (exists []; split; [done | simpl; lia]);
    try exact IH.
  - exists [c]. split; [done | simpl; lia].
  - destruct IH1 as (w1 & E1 & P1), IH2 as (w2 & E2 & P2). subst.
    exists (w1 ++ w2). rewrite <- app_assoc, length_app. split; [done | lia].
  - destruct IH1 as (w1 & E1 & P1), IH2 as (w2 & E2 & P2). subst.
    exists (w1 ++ w2). rewrite <- app_assoc, length_app. split; [done | lia].
Qed.

Lemma Matches_length r pos s pos' s' :
  Matches r pos s pos' s' -> (length s' <= length s)%nat.
Proof.
  intros (w & -> & _)%Matches_prefix. rewrite length_app. lia.
Qed.

(** Soundness: a success of the matcher is a match followed by a
    success of the continuation. *)
Lemma star_loop_sound {A} r
    (IH : forall pos s (k : nat -> list char -> option A) a,
        exec r pos s k = Some a ->
        exists pos' s', Matches r pos s pos' s' /\ k pos' s' = Some a)
    (k : nat -> list char -> option A) n pos s a :
  star_loop (exec r) k n pos s = Some a ->
  exists pos' s', Matches (Star r) pos s pos' s' /\ k pos' s' = Some a.
Proof.
  revert pos s. induction n as [|n IHn]; intros pos s; simpl.
  - intros H. exists pos, s. split; [constructor | done].
  - destruct (exec r pos s _) as [a'|] eqn:E.
    + intros [= ->]. apply IH in E as (pos1 & s1 & H1 & Hk).
      destruct (length s1 <? length s)%nat; [|discriminate].
      apply IHn in Hk as (pos2 & s2 & H2 & Hk).
      exists pos2, s2. split; [by econstructor | done].
    + intros H. exists pos, s. split; [constructor | done].
Qed.

Lemma exec_sound {A} r pos s (k : nat -> list char -> option A) a :
  exec r pos s k = Some a ->
  exists pos' s', Matches r pos s pos' s' /\ k pos' s' = Some a.
Proof.
  revert pos s k a.
  induction r as [|p|r1 IH1 r2 IH2|r1 IH1 r2 IH2|r IH| |];
    intros pos s k a; simpl.
  - intros H. exists pos, s. split; [constructor | done].
  - destruct s as [|c s]; [discriminate|].
    destruct (p c) eqn:Hp; [|discriminate].
    intros H. exists (S pos), s. split; [by constructor | done].
  - intros H. apply IH1 in H as (pos1 & s1 & H1 & H).
    apply IH2 in H as (pos2 & s2 & H2 & H).
    exists pos2, s2. split; [by econstructor | done].
  - destruct (exec r1 pos s k) as [a'|] eqn:E.
    + intros [= ->]. apply IH1 in E as (pos' & s' & H & Hk).
      exists pos', s'. split; [by apply M_Alt_l | done].
    + intros H. apply IH2 in H as (pos' & s' & H & Hk).
      exists pos', s'. split; [by apply M_Alt_r | done].
  - by apply star_loop_sound.
  - destruct (pos =? 0)%nat eqn:E; [|discriminate].
    apply Nat.eqb_eq in E as ->.
    intros H. exists 0%nat, s. split; [constructor | done].
  - destruct s as [|c [|c' s]]; [| |discriminate].
    + intros H. exists pos, []. split; [constructor; by left | done].
    + destruct (N.eqb c newline) eqn:E; [|discriminate].
      apply N.eqb_eq in E as ->.
      intros H. exists pos, [newline]. split; [constructor; by right | done].
Qed.

(** Completeness: where a match exists after which the continuation
    succeeds, the matcher succeeds. *)
Lemma star_loop_complete {A} r
    (IH : forall pos s pos' s' (k : nat -> list char -> option A),
        Matches r pos s pos' s' -> is_Some (k pos' s') ->
        is_Some (exec r pos s k))
    (k : nat -> list char -> option A) pos s pos' s' :
  Matches (Star r) pos s pos' s' -> is_Some (k pos' s') ->
  forall n, (length s <= n)%nat -> is_Some (star_loop (exec r) k n pos s).
Proof.
  intros H Hk. remember (Star r) as R eqn:ER.
  induction H as
    [ | | | | | r0 pos s | r0 pos s pos1 s1 pos2 s2 H1 _ H2 IH2 | | ];
    try discriminate; injection ER as ->; intros n Hn.
  - destruct n as [|n]; simpl; [done|].
    by destruct (exec r pos s _).
  - specialize (IH2 eq_refl Hk).
    pose proof (Matches_length _ _ _ _ _ H1) as Hle.
    destruct (decide (length s1 = length s)) as [Heq|Hne].
    + destruct (Matches_prefix _ _ _ _ _ H1) as (w & -> & ->).
      rewrite length_app in Heq. destruct w; [|simpl in Heq; lia].
      simpl in *. rewrite Nat.add_0_r in IH2. by apply IH2.
    + destruct n as [|n]; [lia|]. simpl.
      destruct (exec r pos s _) eqn:E; [done|].
      assert (is_Some (exec r pos s
                (fun pos' s' => if (length s' <? length s)%nat
                   then star_loop (exec r) k n pos' s' else None))) as Hs.
      { eapply IH; [exact H1|].
        destruct (Nat.ltb_spec (length s1) (length s)); [|lia].
        apply IH2. lia. }
      rewrite E in Hs. by destruct Hs.
Qed.

Lemma exec_complete {A} r pos s pos' s' (k : nat -> list char -> option A) :
  Matches r pos s pos' s' -> is_Some (k pos' s') ->
  is_Some (exec r pos s k).
Proof.
  revert pos s pos' s' k.
  induction r as [|p|r1 IH1 r2 IH2|r1 IH1 r2 IH2|r IH| |];
    intros pos s pos' s' k H Hk.
  - inv H. done.
  - inv H. simpl. by rewrite H1.
  - inv H. simpl. eapply IH1; [eassumption|]. by eapply IH2.
  - simpl. destruct (exec r1 pos s k) eqn:E; [done|].
    inv H.
    + assert (is_Some (exec r1 pos s k)) as Hs by (by eapply IH1).
      rewrite E in Hs. by destruct Hs.
    + by eapply IH2.
  - simpl. by eapply star_loop_complete.
  - inv H. done.
  - inv H. simpl. destruct H0 as [-> | ->]; [done|].
    by rewrite N.eqb_refl.
Qed.

(** [re.match] decides the relation. *)
Lemma re_match_spec r s : re_match r s = true <-> matched_by r s.
Proof.
  unfold re_match, match_len, matched_by. rewrite bool_decide_eq_true. split.
  - intros [n Hn]. apply exec_sound in Hn as (pos' & s' & H & _). eauto.
  - intros (pos' & s' & H). by eapply exec_complete.
Qed.

End Matcher.

(* ================================================================== *)
(** * Trimming and whitespace normalisation *)
(* ================================================================== *)

Section Trimming.
Import Text.

Lemma lstrip_cases s :
  lstrip s = [] \/ exists c s', lstrip s = c :: s' /\ isspace c = false.
Proof.
  induction s as [|c s IH]; simpl; [by left|].
  destruct (isspace c) eqn:E; [exact IH|]. right. eauto.
Qed.

Lemma lstrip_nonspace c s : isspace c = false -> lstrip (c :: s) = c :: s.
Proof. intros E. simpl. by rewrite E. Qed.

Lemma lstrip_idem s : lstrip (lstrip s) = lstrip s.
Proof.
  destruct (lstrip_cases s) as [-> | (c & s' & -> & E)]; [done|].
  by apply lstrip_nonspace.
Qed.

Lemma lstrip_spaces s : Forall (fun c => isspace c = true) s -> lstrip s = [].
Proof. induction 1 as [|c s E _ IH]; simpl; [done|]. by rewrite E. Qed.

Lemma lstrip_app_nonspace a c b :
  isspace c = false -> lstrip (a ++ c :: b) = lstrip a ++ c :: b.
Proof.
  intros E. induction a as [|x a IH]; simpl.
  - by rewrite E.
  - by destruct (isspace x).
Qed.

Lemma rstrip_snoc_nonspace a c :
  isspace c = false -> rstrip (a ++ [c]) = a ++ [c].
Proof.
  intros E. unfold rstrip. rewrite rev_app_distr. simpl. rewrite E.
  simpl. by rewrite rev_involutive.
Qed.

(** A trimmed string is empty or begins with a non-space character,
    and trimming the rest from the right gives the rest. *)
Lemma strip_cases s :
  strip s = []
  \/ exists c s', strip s = c :: s' /\ isspace c = false /\ rstrip (c :: s') = c :: s'.
Proof.
  unfold strip.
  destruct (lstrip_cases s) as [-> | (c & u & -> & E)]; [by left|].
  right. unfold rstrip. simpl rev.
  rewrite (lstrip_app_nonspace (rev u) c [] E), rev_app_distr. simpl.
  exists c, (rev (lstrip (rev u))). split; [done|]. split; [done|].
  rewrite rev_involutive.
  rewrite (lstrip_app_nonspace _ c [] E), lstrip_idem.
  by rewrite rev_app_distr.
Qed.

Lemma strip_idem s : strip (strip s) = strip s.
Proof.
  destruct (strip_cases s) as [-> | (c & s' & -> & E & R)]; [done|].
  unfold strip at 1. by rewrite (lstrip_nonspace c s' E).
Qed.

Lemma strip_spaces s : Forall (fun c => isspace c = true) s -> strip s = [].
Proof. intros H. unfold strip. by rewrite (lstrip_spaces s H). Qed.

Lemma split_ws_nonempty cur s :
  cur <> [] -> split_ws cur s <> [].
Proof.
  revert cur. induction s as [|c s IH]; intros cur Hc; simpl.
  - by destruct cur.
  - destruct (isspace c); [by destruct cur | by apply IH].
Qed.

Lemma split_ws_words cur s : Forall (fun w => w <> []) (split_ws cur s).
Proof.
  revert cur. induction s as [|c s IH]; intros cur; simpl.
  - destruct cur as [|x cur]; constructor; [|constructor].
    intros H. apply (f_equal length) in H. rewrite length_rev in H. discriminate.
  - destruct (isspace c); [|apply IH].
    destruct cur as [|x cur]; [apply IH|]. constructor; [|apply IH].
    intros H. apply (f_equal length) in H. rewrite length_rev in H. discriminate.
Qed.

Lemma join_space_nonempty ws :
  ws <> [] -> Forall (fun w => w <> []) ws -> join_space ws <> [].
Proof.
  destruct ws as [|w ws]; [done|]. intros _ H.
  apply Forall_cons in H as [Hw _]. simpl.
  destruct ws; [done|]. by destruct w.
Qed.

(** Normalising a non-empty trimmed text leaves a non-empty text. *)
Lemma normalize_strip_nonempty s : strip s <> [] -> normalize (strip s) <> [].
Proof.
  intros H. destruct (strip_cases s) as [E | (c & s' & -> & E & _)]; [done|].
  unfold normalize. apply join_space_nonempty; [|apply split_ws_words].
  simpl. rewrite E. by apply split_ws_nonempty.
Qed.

End Trimming.

(* ================================================================== *)
(** * The verse parsers *)
(* ================================================================== *)

Section Parsers.
Import Text Re.

Lemma elem_of_verses_of f pieces v :
  v ∈ extract_scriptures.verses_of f pieces ->
  exists ref body, (ref, body) ∈ pairs pieces /\ v ∈ f ref body.
Proof.
  revert v. induction pieces as [pieces IH] using (induction_ltof1 _ length).
  unfold ltof in IH. intros v.
  destruct pieces as [|ref [|body rest]]; simpl;
    [by intros ?%elem_of_nil | by intros ?%elem_of_nil |].
  rewrite elem_of_app. intros [H | H].
  - exists ref, body. split; [apply list_elem_of_here | done].
  - apply IH in H as (ref' & body' & Hin & Hv); [|simpl; lia].
    exists ref', body'. split; [by apply list_elem_of_further | done].
Qed.

Lemma verses_of_pairs f pieces :
  extract_scriptures.verses_of f pieces
  = concat ((fun rb => f rb.1 rb.2) <$> pairs pieces).
Proof.
  induction pieces as [pieces IH] using (induction_ltof1 _ length).
  unfold ltof in IH.
  destruct pieces as [|ref [|body rest]]; simpl; [done | done |].
  rewrite IH; [done | simpl; lia].
Qed.

Lemma hardened_verse_of_text ref body v :
  v ∈ extract_scriptures.verse_of ref body -> text v <> [].
Proof.
  unfold extract_scriptures.verse_of.
  destruct (re_search _ _) as [digits|]; [|by intros ?%elem_of_nil].
  destruct (strip body) as [|c s'] eqn:E; [by intros ?%elem_of_nil|].
  destruct (extract_scriptures.is_placeholder_text _); [by intros ?%elem_of_nil|].
  intros ->%list_elem_of_singleton. simpl.
  rewrite <- E. apply normalize_strip_nonempty. by rewrite E.
Qed.

Lemma baseline_verse_of_text ref body v :
  v ∈ extract_bibles.verse_of ref body -> text v <> [].
Proof.
  unfold extract_bibles.verse_of.
  destruct (re_search _ _) as [digits|]; [|by intros ?%elem_of_nil].
  destruct (strip body) as [|c s'] eqn:E; [by intros ?%elem_of_nil|].
  intros ->%list_elem_of_singleton. simpl.
  rewrite <- E. apply normalize_strip_nonempty. by rewrite E.
Qed.

End Parsers.

(** C9. Every verse emitted by either parser has non-empty text, and a
    reference whose body is empty after trimming yields no verse in
    either parser. *)
Theorem parsed_verses_have_text
    (output : list char) (book_id : string) (chapter : Z) :
  (forall v,
      v ∈ extract_scriptures.parse_diatheke_output output book_id chapter ->
      text v <> [])
  /\ (forall v,
      v ∈ extract_bibles.parse_diatheke_output output book_id chapter ->
      text v <> [])
  /\ (forall ref body,
      Text.strip body = [] ->
      extract_scriptures.verse_of ref body = []
      /\ extract_bibles.verse_of ref body = []).
Proof.
  split; [|split].
  - intros v (ref & body & _ & Hv)%elem_of_verses_of.
    by eapply hardened_verse_of_text.
  - intros v (ref & body & _ & Hv)%elem_of_verses_of.
    by eapply baseline_verse_of_text.
  - intros ref body E.
    unfold extract_scriptures.verse_of, extract_bibles.verse_of.
    rewrite E. by destruct (Re.re_search _ _).
Qed.

Section NoMarker.
Import Text Re extract_scriptures.

(** An attribution begins with a line feed. *)
Lemma match_len_attribution_no_newline pos c s :
  c <> newline -> match_len attribution_pattern pos (c :: s) = None.
Proof.
  intros Hc. unfold match_len, attribution_pattern, Chr. cbn [exec].
  unfold is_char. apply N.eqb_neq in Hc. by rewrite Hc.
Qed.

(** Without a line feed, no attribution is removed. *)
Lemma sub_from_no_newline pos s :
  Forall (fun c => c <> newline) s ->
  sub_from attribution_pattern pos 0 s = s.
Proof.
  intros H. revert pos. induction H as [|c s Hc _ IH]; intros pos; [done|].
  cbn [sub_from]. rewrite (match_len_attribution_no_newline pos c s Hc).
  by rewrite IH.
Qed.

(** Away from the start of the text, a reference needs a line feed. *)
Lemma match_at_marker_no_newline pos c s :
  pos <> 0%nat -> c <> newline ->
  match_at marker_pattern pos (c :: s) = None.
Proof.
  intros Hp Hc. unfold match_at, marker_pattern, Chr. cbn [pre exec].
  apply Nat.eqb_neq in Hp. rewrite Hp.
  unfold is_char. apply N.eqb_neq in Hc. by rewrite Hc.
Qed.

Lemma split_from_no_newline pos cur s :
  pos <> 0%nat -> Forall (fun c => c <> newline) s ->
  split_from marker_pattern pos 0 cur s = [rev cur ++ s].
Proof.
  intros Hp H. revert pos cur Hp.
  induction H as [|c s Hc _ IH]; intros pos cur Hp.
  - simpl. by rewrite app_nil_r.
  - cbn [split_from]. rewrite (match_at_marker_no_newline pos c s Hp Hc).
    rewrite IH by lia. simpl. by rewrite <- app_assoc.
Qed.

(** At the start of the text, a reference begins with a letter, a
    digit or a space. *)
Lemma match_at_marker_start c s :
  isalpha c || in_range 48 57 c || is_char " "%c c = false -> c <> newline ->
  match_at marker_pattern 0 (c :: s) = None.
Proof.
  intros Hcls Hc. unfold match_at, marker_pattern, Chr, Plus.
  cbn [pre grp exec Nat.eqb]. rewrite Hcls.
  unfold is_char. apply N.eqb_neq in Hc. by rewrite Hc.
Qed.

Lemma re_split_no_marker c s :
  isalpha c || in_range 48 57 c || is_char " "%c c = false ->
  Forall (fun c => c <> newline) (c :: s) ->
  re_split marker_pattern (c :: s) = [c :: s].
Proof.
  intros Hcls H. apply Forall_cons in H as [Hc H].
  unfold re_split. cbn [split_from].
  rewrite (match_at_marker_start c s Hcls Hc).
  by rewrite split_from_no_newline.
Qed.

Lemma attribution_line_pieces s :
  attribution_line s ->
  re_split marker_pattern (re_sub attribution_pattern s) = [s].
Proof.
  intros (body & -> & _ & Hbody).
  assert (Forall (fun c => c <> newline) ("("%c :: body ++ [")"%c])) as H.
  { constructor; [discriminate|]. apply Forall_app. split.
    - eapply Forall_impl; [exact Hbody|]. by intros c [_ ?].
    - by repeat constructor. }
  unfold re_sub. rewrite (sub_from_no_newline 0 _ H).
  by apply re_split_no_marker.
Qed.

End NoMarker.

(** The cases of the test suite. *)
Example parse_single_verse :
  extract_scriptures.parse_diatheke_output
    (str "Genesis 1:1: In the beginning God created the heaven and the earth."
     ++ [Text.newline; Text.newline] ++ str "(KJV)") "Gen" 1
  = [ {| number := 1;
         text := str "In the beginning God created the heaven and the earth." |} ].
Proof. vm_compute. reflexivity. Qed.

Example parse_multiple_verses :
  number <$> extract_scriptures.parse_diatheke_output
    (str "Genesis 1:1: In the beginning God created the heaven and the earth."
     ++ [Text.newline]
     ++ str "Genesis 1:2: And the earth was without form, and void."
     ++ [Text.newline]
     ++ str "Genesis 1:3: And God said, Let there be light: and there was light."
     ++ [Text.newline; Text.newline] ++ str "(KJV)") "Gen" 1
  = [1; 2; 3]%Z.
Proof. vm_compute. reflexivity. Qed.

Example parse_multiline_verse :
  extract_bibles.parse_diatheke_output
    (str "Psalm 23:1: The LORD is my shepherd; I shall not want."
     ++ [Text.newline] ++ str "He maketh me to lie down in green pastures."
     ++ [Text.newline; Text.newline] ++ str "(KJV)") "Ps" 23
  = [ {| number := 1;
         text := str "The LORD is my shepherd; I shall not want. He maketh me to lie down in green pastures." |} ].
Proof. vm_compute. reflexivity. Qed.

(** The baseline parser has no placeholder test and keeps an echoed
    reference as verse text. *)
Example baseline_keeps_placeholder :
  extract_bibles.parse_diatheke_output
    (str "II Chronicles 19:1: II Chronicles 19:2:") "2Chr" 19
  = [ {| number := 1; text := str "II Chronicles 19:2:" |} ]
  /\ extract_scriptures.parse_diatheke_output
       (str "II Chronicles 19:1: II Chronicles 19:2:") "2Chr" 19
     = [].
Proof. split; vm_compute; reflexivity. Qed.

(** Text of other scripts is read by code points: a Greek verse keeps
    its text, a body of three Greek letters is shorter than five
    characters, and blanks and digits of any script count as such. *)
Example parse_greek_verse :
  extract_scriptures.parse_diatheke_output
    (str "John 1:1: Ἐν ἀρχῇ ἦν ὁ λόγος"
     ++ [Text.newline; Text.newline] ++ str "(SBLGNT)") "John" 1
  = [ {| number := 1; text := str "Ἐν ἀρχῇ ἦν ὁ λόγος" |} ]
  /\ length (str "Ἐν ἀρχῇ ἦν ὁ λόγος") = 18%nat.
Proof. split; vm_compute; reflexivity. Qed.

Example short_greek_body_discarded :
  extract_scriptures.parse_diatheke_output (str "Genesis 1:1: αβγ") "Gen" 1
  = []
  /\ extract_bibles.parse_diatheke_output (str "Genesis 1:1: αβγ") "Gen" 1
     = [ {| number := 1; text := str "αβγ" |} ]
  /\ extract_scriptures.parse_diatheke_output (str "Genesis 1:1: ΠΑΝΤΑ")
       "Gen" 1
     = [ {| number := 1; text := str "ΠΑΝΤΑ" |} ].
Proof. repeat split; vm_compute; reflexivity. Qed.

(** An em space and a no-break space between the words, an
    Arabic-Indic three as verse number. *)
Example parse_blanks_and_digits_of_other_scripts :
  extract_scriptures.parse_diatheke_output
    (str "Genesis 1:٣: Ἐν" ++ [8195; 160]%N ++ str "ἀρχῇ") "Gen" 1
  = [ {| number := 3; text := str "Ἐν ἀρχῇ" |} ].
Proof. vm_compute. reflexivity. Qed.

(** C7. An output that is empty or all whitespace, or that after
    trimming is only a module attribution line such as "(KJV)", parses
    to the empty verse list in both parsers. *)
Theorem parse_diatheke_output_blank
    (output : list char) (book_id : string) (chapter : Z) :
  Forall (fun c => Text.isspace c = true) output
  \/ attribution_line (Text.strip output) ->
  extract_scriptures.parse_diatheke_output output book_id chapter = []
  /\ extract_bibles.parse_diatheke_output output book_id chapter = [].
Proof.
  unfold extract_scriptures.parse_diatheke_output,
    extract_bibles.parse_diatheke_output.
  intros [H | H].
  - rewrite (strip_spaces output H). by split.
  - rewrite (attribution_line_pieces _ H). by split.
Qed.

(** The attribution alone, blanks alone, and the empty output. *)
Lemma parse_diatheke_output_blank_witness :
  (extract_scriptures.parse_diatheke_output (str "(KJV)") "Gen" 1 = []
   /\ extract_bibles.parse_diatheke_output (str "(KJV)") "Gen" 1 = [])
  /\ (extract_scriptures.parse_diatheke_output (str "  ") "Gen" 1 = []
   /\ extract_bibles.parse_diatheke_output (str "  ") "Gen" 1 = [])
  /\ (extract_scriptures.parse_diatheke_output [] "Gen" 1 = []
   /\ extract_bibles.parse_diatheke_output [] "Gen" 1 = []).
Proof.
  split; [|split].
  - apply (parse_diatheke_output_blank (str "(KJV)") "Gen" 1).
    right. exists (str "KJV"). split; [reflexivity|]. split; [discriminate|].
    repeat constructor; discriminate.
  - apply (parse_diatheke_output_blank (str "  ") "Gen" 1).
    left. repeat constructor.
  - apply (parse_diatheke_output_blank [] "Gen" 1).
    left. constructor.
Defined.

(* ================================================================== *)
(** * References found by [re.split] carry a verse number *)
(* ================================================================== *)

Section References.
Import Text Re extract_scriptures.

(** A decimal digit lies in one of the runs of ten. *)
Lemma isdigit_decade c :
  isdigit c = true ->
  exists lo, In lo decades /\ (lo <= c <= lo + 9)%N.
Proof.
  unfold isdigit, decade.
  destruct (find _ decades) as [lo|] eqn:E; [|done]. intros _.
  apply find_some in E as [Hin Hr]. exists lo. split; [done|].
  unfold in_range in Hr. apply andb_true_iff in Hr as [H1 H2].
  apply N.leb_le in H1. apply N.leb_le in H2. lia.
Qed.

(** No run of digits holds a blank, a colon or a parenthesis. *)
Lemma decades_clear :
  forallb (fun lo =>
             forallb (fun k =>
                        negb (isspace (lo + k)) && negb (lo + k =? ":"%c)%N
                        && negb (lo + k =? "("%c)%N
                        && negb (lo + k =? ")"%c)%N)
               [0; 1; 2; 3; 4; 5; 6; 7; 8; 9]%N)
    decades = true.
Proof. vm_compute. reflexivity. Qed.

Lemma decades_apart :
  Forall (fun lo => forall c, (lo <= c <= lo + 9)%N ->
                      isspace c = false /\ c <> ":"%c /\ c <> "("%c
                      /\ c <> ")"%c)
    decades.
Proof.
  apply List.Forall_forall. intros lo Hlo c Hc.
  pose proof decades_clear as H. rewrite forallb_forall in H.
  specialize (H lo Hlo). rewrite forallb_forall in H.
  assert (In (c - lo)%N [0; 1; 2; 3; 4; 5; 6; 7; 8; 9]%N) as Hk
    by (simpl; lia).
  specialize (H _ Hk). replace (lo + (c - lo))%N with c in H by lia.
  rewrite !andb_true_iff, !negb_true_iff, !N.eqb_neq in H.
  by destruct H as [[[? ?] ?] ?].
Qed.

Lemma isdigit_apart c :
  isdigit c = true ->
  isspace c = false /\ c <> ":"%c /\ c <> "("%c /\ c <> ")"%c.
Proof.
  intros (lo & Hin & Hc)%isdigit_decade.
  pose proof decades_apart as H. rewrite List.Forall_forall in H.
  by apply (H lo Hin c).
Qed.

Lemma isdigit_not_space c : isdigit c = true -> isspace c = false.
Proof. intros H. by apply isdigit_apart. Qed.

Lemma Matches_cat_inv r1 r2 pos s pos2 s2 :
  Matches (Cat r1 r2) pos s pos2 s2 ->
  exists pos1 s1, Matches r1 pos s pos1 s1 /\ Matches r2 pos1 s1 pos2 s2.
Proof. inversion 1; subst; eauto. Qed.

Lemma Matches_cls_inv p pos s pos' s' :
  Matches (Cls p) pos s pos' s' ->
  exists c, s = c :: s' /\ p c = true /\ pos' = S pos.
Proof. inversion 1; subst; eauto. Qed.

(** Runs of one character class. *)
Lemma Matches_star_cls p pos s pos' s' :
  Matches (Star (Cls p)) pos s pos' s' ->
  exists w, s = w ++ s' /\ Forall (fun c => p c = true) w.
Proof.
  remember (Star (Cls p)) as R eqn:ER. intros H.
  induction H as
    [ | | | | | r pos s | r pos s pos1 s1 pos2 s2 H1 _ _ IH2 | | ];
    try discriminate; injection ER as ->.
  - by exists [].
  - destruct (IH2 eq_refl) as (w & -> & Hw).
    apply Matches_cls_inv in H1 as (c & -> & Hc & _).
    exists (c :: w). split; [done | by constructor].
Qed.

Lemma Matches_plus_cls p pos s pos' s' :
  Matches (Plus (Cls p)) pos s pos' s' ->
  exists c w, s = c :: w ++ s' /\ p c = true /\ Forall (fun c => p c = true) w.
Proof.
  intros (pos1 & s1 & (c & -> & Hc & _)%Matches_cls_inv & H)%Matches_cat_inv.
  apply Matches_star_cls in H as (w & -> & Hw). by exists c, w.
Qed.

Lemma Matches_star_cls_run p w pos s :
  Forall (fun c => p c = true) w ->
  Matches (Star (Cls p)) pos (w ++ s) (pos + length w) s.
Proof.
  intros H. revert pos. induction H as [|c w Hc _ IH]; intros pos; simpl.
  - rewrite Nat.add_0_r. constructor.
  - eapply M_Star_step; [by constructor|].
    replace (pos + S (length w))%nat with (S pos + length w)%nat by lia.
    apply IH.
Qed.

(** What [match_at] returns is the text matched by the group, between
    a match of the part before and a match of the part after. *)
Lemma match_at_sound p pos s g n :
  match_at p pos s = Some (g, n) ->
  exists p1 p2 p3 s2 s3,
    Matches (pre p) pos s p1 (g ++ s2)
    /\ Matches (grp p) p1 (g ++ s2) p2 s2
    /\ Matches (post p) p2 s2 p3 s3.
Proof.
  unfold match_at. intros H.
  apply exec_sound in H as (p1 & s1 & H1 & H).
  apply exec_sound in H as (p2 & s2 & H2 & H).
  apply exec_sound in H as (p3 & s3 & H3 & H).
  injection H as <- _.
  destruct (Matches_prefix _ _ _ _ _ H2) as (w & -> & ->).
  replace (p1 + length w - p1)%nat with (length w) by lia.
  rewrite take_app_length. by exists p1, (p1 + length w)%nat, p3, s2, s3.
Qed.

Lemma match_at_complete p pos s p1 s1 p2 s2 p3 s3 :
  Matches (pre p) pos s p1 s1 ->
  Matches (grp p) p1 s1 p2 s2 ->
  Matches (post p) p2 s2 p3 s3 ->
  is_Some (match_at p pos s).
Proof.
  intros H1 H2 H3. unfold match_at.
  eapply exec_complete; [exact H1|].
  eapply exec_complete; [exact H2|].
  eapply exec_complete; [exact H3|]. done.
Qed.

Lemma search_from_complete p pos u v :
  is_Some (match_at p (pos + length u) v) ->
  is_Some (search_from p pos (u ++ v)).
Proof.
  revert pos. induction u as [|c u IH]; intros pos; simpl.
  - rewrite Nat.add_0_r. intros [[g n] E].
    destruct v; simpl; by rewrite E.
  - intros H. destruct (match_at p pos (c :: u ++ v)) as [[g n]|]; [done|].
    apply IH. by replace (S pos + length u)%nat with (pos + S (length u))%nat by lia.
Qed.

(** A text that ends with a colon and digits has a verse number. *)
Lemma re_search_verse_number x d ds :
  Forall (fun c => isdigit c = true) (d :: ds) ->
  is_Some (re_search verse_number_pattern (x ++ ":"%c :: d :: ds)).
Proof.
  intros Hd. apply Forall_cons in Hd as [Hd Hds].
  unfold re_search. apply search_from_complete.
  eapply match_at_complete with (s3 := []); simpl.
  - by constructor.
  - econstructor; [by constructor|].
    rewrite <- (app_nil_r ds) at 1. by apply Matches_star_cls_run.
  - constructor. by left.
Qed.

(** The group of the reference pattern: a name, blanks, digits, a
    colon and digits. Trimmed, it still ends with the colon and the
    digits. *)
Lemma marker_group_shape p1 g s2 p2 :
  Matches (grp marker_pattern) p1 (g ++ s2) p2 s2 ->
  exists x d ds,
    strip g = x ++ ":"%c :: d :: ds
    /\ Forall (fun c => isdigit c = true) (d :: ds).
Proof.
  intros H. cbn [grp marker_pattern] in H.
  apply Matches_cat_inv in H as (q1 & t1 & H1 & H).
  apply Matches_cat_inv in H as (q2 & t2 & H2 & H).
  apply Matches_cat_inv in H as (q3 & t3 & H3 & H).
  apply Matches_cat_inv in H as (q4 & t4 & H4 & H).
  apply Matches_plus_cls in H as (d & ds & -> & Hd & Hds).
  apply Matches_cls_inv in H4 as (c4 & -> & ->%N.eqb_eq & _).
  apply Matches_plus_cls in H3 as (c3 & w3 & -> & Hc3 & Hw3).
  apply Matches_plus_cls in H2 as (c2 & w2 & -> & _ & _).
  apply Matches_plus_cls in H1 as (c1 & w1 & H & _ & _).
  assert (g = (c1 :: w1 ++ c2 :: w2) ++ c3 :: (w3 ++ [":"%c]) ++ d :: ds) as ->.
  { apply (app_inv_tail s2). rewrite H.
    simpl. repeat (rewrite <- app_assoc; simpl). reflexivity. }
  clear H.
  assert (exists y e, d :: ds = y ++ [e] /\ isdigit e = true) as (y & e & Ey & He).
  { destruct (rev (d :: ds)) as [|e y'] eqn:Er.
    - apply (f_equal length) in Er. rewrite length_rev in Er. discriminate.
    - exists (rev y'), e. split.
      + rewrite <- (rev_involutive (d :: ds)), Er. done.
      + assert (e ∈ d :: ds) as Hin.
        { rewrite <- (rev_involutive (d :: ds)), Er. simpl. set_solver. }
        rewrite Forall_forall in Hds. apply elem_of_cons in Hin as [-> | Hin]; auto. }
  exists (lstrip (c1 :: w1 ++ c2 :: w2) ++ c3 :: w3), d, ds.
  split; [|by constructor].
  unfold strip. rewrite (lstrip_app_nonspace _ c3 _ (isdigit_not_space _ Hc3)).
  rewrite Ey.
  replace (lstrip (c1 :: w1 ++ c2 :: w2) ++ c3 :: (w3 ++ [":"%c]) ++ y ++ [e])
    with ((lstrip (c1 :: w1 ++ c2 :: w2) ++ c3 :: w3 ++ ":"%c :: y) ++ [e])
    by (simpl; repeat (rewrite <- app_assoc; simpl); reflexivity).
  rewrite (rstrip_snoc_nonspace _ e (isdigit_not_space _ He)).
  simpl. repeat (rewrite <- app_assoc; simpl). reflexivity.
Qed.

(** Every reference produced by the split is the group of a match. *)
Lemma split_from_refs p pos skip cur s :
  (exists x xs, split_from p pos skip cur s = x :: xs)
  /\ forall ref body,
       (ref, body) ∈ pairs (tail (split_from p pos skip cur s)) ->
       exists pos' s' n, match_at p pos' s' = Some (ref, n).
Proof.
  revert pos skip cur. induction s as [|c s IH]; intros pos skip cur.
  - simpl. split; [eauto|]. by intros ref body ?%elem_of_nil.
  - cbn [split_from]. destruct skip as [|skip]; [|apply IH].
    destruct (match_at p pos (c :: s)) as [[g [|n]]|] eqn:E; [apply IH | | apply IH].
    split; [eauto|]. intros ref body. cbn [tail].
    destruct (IH (S pos) n []) as [(x & xs & Ex) IHp]. rewrite Ex in *.
    cbn [pairs]. intros [[= -> ->] | H]%elem_of_cons.
    + eauto.
    + by apply (IHp ref body).
Qed.

Lemma markers_have_verse_number output ref body :
  (ref, body) ∈ markers output ->
  is_Some (re_search verse_number_pattern (strip ref)).
Proof.
  unfold markers, re_split. intros H.
  apply split_from_refs in H as (pos' & s' & n & H).
  apply match_at_sound in H as (p1 & p2 & p3 & s2 & s3 & _ & Hg & _).
  apply marker_group_shape in Hg as (x & d & ds & -> & Hd).
  by apply re_search_verse_number.
Qed.

(** The patterns of the parser match no empty string, so [re_sub] and
    [re_split] never meet an empty match. *)
Lemma match_at_marker_nonempty pos s g n :
  match_at marker_pattern pos s = Some (g, n) -> (0 < n)%nat.
Proof.
  unfold match_at. intros H.
  apply exec_sound in H as (p1 & s1 & H1 & H).
  apply exec_sound in H as (p2 & s2 & H2 & H).
  apply exec_sound in H as (p3 & s3 & H3 & H).
  injection H as _ <-.
  apply Matches_prefix in H1 as (w1 & _ & ->).
  apply Matches_prefix in H3 as (w3 & _ & ->).
  cbn [grp marker_pattern] in H2.
  apply Matches_cat_inv in H2 as (q & t & Hq & H2).
  apply Matches_cat_inv in Hq as (q' & t' & (c & _ & _ & ->)%Matches_cls_inv & Hq).
  apply Matches_prefix in Hq as (w & _ & ->).
  apply Matches_prefix in H2 as (w' & _ & ->). lia.
Qed.

Lemma match_len_attribution_nonempty pos s n :
  match_len attribution_pattern pos s = Some n -> (0 < n)%nat.
Proof.
  unfold match_len. intros H.
  apply exec_sound in H as (pos' & s' & H & [= <-]).
  unfold attribution_pattern in H.
  apply Matches_cat_inv in H as (q & t & (c & _ & _ & ->)%Matches_cls_inv & H).
  apply Matches_prefix in H as (w & _ & ->). lia.
Qed.

Lemma is_placeholder_text_spec body :
  is_placeholder_text (strip body) = true <->
  (length (strip body) < 5)%nat \/ matched_by placeholder_pattern (strip body).
Proof.
  unfold is_placeholder_text. rewrite strip_idem.
  destruct (Nat.ltb_spec (length (strip body)) 5) as [Hlt | Hge].
  - split; [by left | done].
  - rewrite re_match_spec. split; [by right | intros [?|?]; [lia | done]].
Qed.

End References.

(** C4, counterexample. The body "Ezra2 1:1:" is a reference marker of
    ten characters, and the hardened parser emits it as a verse; the
    body "See John 3:16" is no reference marker (no closing colon), and
    the hardened parser discards it. *)
Lemma placeholder_pattern_is_not_the_marker :
  (Text.strip (str "Ezra2 1:1:") = str "Ezra2 1:1:"
   /\ length (str "Ezra2 1:1:") = 10%nat
   /\ Re.re_match described_placeholder_pattern (str "Ezra2 1:1:") = true
   /\ extract_scriptures.is_placeholder_text (str "Ezra2 1:1:") = false
   /\ extract_scriptures.parse_diatheke_output
        (str "Genesis 1:1: Ezra2 1:1:") "Gen" 1
      = [ {| number := 1; text := str "Ezra2 1:1:" |} ])
  /\ (Text.strip (str "See John 3:16") = str "See John 3:16"
   /\ length (str "See John 3:16") = 13%nat
   /\ Re.re_match described_placeholder_pattern (str "See John 3:16") = false
   /\ extract_scriptures.is_placeholder_text (str "See John 3:16") = true
   /\ extract_scriptures.parse_diatheke_output
        (str "Genesis 1:1: See John 3:16") "Gen" 1
      = []).
Proof. repeat split; vm_compute; reflexivity. Qed.

(** C4, as the code has it. The hardened parser emits its verses
    reference by reference.  The body that follows a reference is
    discarded exactly when, trimmed, it has fewer than 5 characters or
    it matches the placeholder pattern of the code (an optional ordinal,
    alphabetic words, blanks, digits, a colon, digits, an optional
    colon); otherwise it becomes one verse with the number of its
    reference.  The body "II Chronicles 19:2:" is always discarded. *)
Theorem placeholder_bodies_discarded
    (output : list char) (book_id : string) (chapter : Z) :
  extract_scriptures.parse_diatheke_output output book_id chapter
  = concat ((fun rb => extract_scriptures.verse_of rb.1 rb.2)
              <$> markers output)
  /\ (forall ref body,
      (ref, body) ∈ markers output ->
      exists digits,
        Re.re_search extract_scriptures.verse_number_pattern (Text.strip ref)
        = Some digits
        /\ (extract_scriptures.verse_of ref body = [] <->
            (length (Text.strip body) < 5)%nat
            \/ matched_by extract_scriptures.placeholder_pattern
                 (Text.strip body))
        /\ (extract_scriptures.verse_of ref body = []
            \/ extract_scriptures.verse_of ref body
               = [ {| number := Text.int digits;
                      text := Text.normalize (Text.strip body) |} ]))
  /\ (forall ref,
      extract_scriptures.verse_of ref (str "II Chronicles 19:2:") = []).
Proof.
  split; [|split].
  - unfold extract_scriptures.parse_diatheke_output, markers.
    apply verses_of_pairs.
  - intros ref body Hin.
    destruct (markers_have_verse_number output ref body Hin) as [digits Hd].
    exists digits. split; [done|].
    pose proof (is_placeholder_text_spec body) as Hp.
    unfold extract_scriptures.verse_of. rewrite Hd.
    revert Hp. destruct (Text.strip body) as [|c s']; intros Hp.
    + split; [|by left]. split; [intros _; left; simpl; lia | done].
    + destruct (extract_scriptures.is_placeholder_text (c :: s')).
      * split; [|by left]. split; [intros _; by apply Hp | done].
      * split; [|by right]. split; [done|]. intros H. by apply Hp in H.
  - intros ref. unfold extract_scriptures.verse_of.
    destruct (Re.re_search _ _); [|done].
    replace (Text.strip (str "II Chronicles 19:2:"))
      with (str "II Chronicles 19:2:") by (vm_compute; reflexivity).
    replace (extract_scriptures.is_placeholder_text (str "II Chronicles 19:2:"))
      with true by (vm_compute; reflexivity).
    reflexivity.
Qed.

(** A reference echoed as the body of the reference before it. *)
Lemma placeholder_bodies_discarded_witness :
  exists digits,
    Re.re_search extract_scriptures.verse_number_pattern
      (Text.strip (str "II Chronicles 19:1")) = Some digits
    /\ (extract_scriptures.verse_of (str "II Chronicles 19:1")
          (str "II Chronicles 19:2:") = [] <->
        (length (Text.strip (str "II Chronicles 19:2:")) < 5)%nat
        \/ matched_by extract_scriptures.placeholder_pattern
             (Text.strip (str "II Chronicles 19:2:")))
    /\ (extract_scriptures.verse_of (str "II Chronicles 19:1")
          (str "II Chronicles 19:2:") = []
        \/ extract_scriptures.verse_of (str "II Chronicles 19:1")
             (str "II Chronicles 19:2:")
           = [ {| number := Text.int digits;
                  text := Text.normalize
                            (Text.strip (str "II Chronicles 19:2:")) |} ]).
Proof.
  apply (proj1 (proj2 (placeholder_bodies_discarded
           (str "II Chronicles 19:1: II Chronicles 19:2:") "2Chr" 19))).
  vm_compute. apply list_elem_of_here.
Defined.

(* ================================================================== *)
(** * Further properties of the loader *)
(* ================================================================== *)

Section LoaderFacts.
Import extract_scriptures.

(** How a returned definition came about. *)
Lemma load_versification_Loaded depth dir name d :
  load_versification depth dir name = Loaded d ->
  exists data, dir !! name = Some data
    /\ ((extends data = None /\ d = data)
        \/ exists p depth' parent,
             extends data = Some p /\ depth = S depth'
             /\ load_versification depth' dir p = Loaded parent
             /\ d = set_books data
                      (merge_books (default [] (books parent))
                         (default [] (additional_books data)))).
Proof.
  destruct depth as [|depth']; simpl;
    destruct (dir !! name) as [data|]; try discriminate;
    destruct (extends data) as [p|] eqn:E; try discriminate.
  - intros [= <-]. exists data. split; [done|]. by left.
  - destruct (load_versification depth' dir p) as [parent| |] eqn:Ep;
      try discriminate.
    intros [= <-]. exists data. split; [done|]. right.
    by exists p, depth', parent.
  - intros [= <-]. exists data. split; [done|]. by left.
Qed.

Lemma splice_Permutation bs add_book : splice bs add_book ≡ₚ add_book :: bs.
Proof.
  destruct (splice_inserts bs add_book) as (l & r & -> & ->).
  symmetry. apply Permutation_middle.
Qed.

Lemma merge_books_Permutation bs adds : merge_books bs adds ≡ₚ bs ++ adds.
Proof.
  revert bs. induction adds as [|x adds IH]; intros bs; simpl.
  - by rewrite app_nil_r.
  - rewrite IH, splice_Permutation. simpl. apply Permutation_middle.
Qed.

Lemma ancestor_books depth dir name q d :
  load_versification depth dir name = Loaded d ->
  ancestor dir name q ->
  exists dq, load_versification depth dir q = Loaded dq
    /\ default [] (books dq) `sublist_of` default [] (books d).
Proof.
  intros Hl Ha. revert depth d Hl.
  induction Ha as [name | name data p q Hd He _ IH]; intros depth d Hl.
  - by exists d.
  - apply load_versification_Loaded in Hl
      as (data' & Hd' & [(He' & _) | (p' & depth' & parent & He' & -> & Hp & ->)]);
      rewrite Hd in Hd'; injection Hd' as <-; rewrite He in He'; [done|].
    injection He' as <-.
    destruct (IH depth' parent Hp) as (dq & Hq & Hsub).
    exists dq. split.
    + apply (load_versification_depth dir q depth' dq Hq). lia.
    + etrans; [exact Hsub|]. simpl. by apply sublist_merge_books.
Qed.

Lemma sublist_flatten (bs1 bs2 : list BookEntry) :
  bs1 `sublist_of` bs2 ->
  concat (book_units <$> bs1) `sublist_of` concat (book_units <$> bs2).
Proof.
  induction 1 as [|x l1 l2 _ IH|x l1 l2 _ IH]; simpl.
  - done.
  - by apply sublist_app.
  - by apply sublist_inserts_l.
Qed.

End LoaderFacts.

(** X1. Inheritance neither loses nor duplicates a book: the books of a
    loaded canon that extends another are, up to order, the books of its
    loaded parent together with its own [additional_books]. *)
Theorem load_versification_books_permutation
    (depth : nat) (dir : gmap string CanonDefinition) (name p : string)
    (data d : CanonDefinition) :
  dir !! name = Some data -> extends data = Some p ->
  extract_scriptures.load_versification depth dir name = Loaded d ->
  exists parent,
    extract_scriptures.load_versification depth dir p = Loaded parent
    /\ default [] (books d)
       ≡ₚ default [] (books parent) ++ default [] (additional_books data)
    /\ length (default [] (books d))
       = (length (default [] (books parent))
          + length (default [] (additional_books data)))%nat.
Proof.
  intros Hd He Hl.
  apply load_versification_Loaded in Hl
    as (data' & Hd' & [(He' & _) | (p' & depth' & parent & He' & -> & Hp & ->)]);
    rewrite Hd in Hd'; injection Hd' as <-; rewrite He in He'; [done|].
  injection He' as <-. exists parent.
  split; [apply (load_versification_depth dir p depth' parent Hp); lia|].
  simpl. split.
  - apply merge_books_Permutation.
  - by rewrite merge_books_Permutation, length_app.
Qed.

Lemma load_versification_books_permutation_witness :
  exists parent,
    extract_scriptures.load_versification 1 small_dir "base" = Loaded parent
    /\ default [] (books wide_loaded)
       ≡ₚ default [] (books parent) ++ default [] (additional_books wide_doc)
    /\ length (default [] (books wide_loaded))
       = (length (default [] (books parent))
          + length (default [] (additional_books wide_doc)))%nat.
Proof.
  apply (load_versification_books_permutation 1 small_dir "wide" "base"
           wide_doc wide_loaded).
  - vm_compute. reflexivity.
  - reflexivity.
  - vm_compute. reflexivity.
Defined.

(** X2. The books of every canon on the [extends] chain of a loaded
    canon appear in the loaded canon's books in their own order, and so
    do their flattened units: inheritance only adds, over any number of
    levels. *)
Theorem load_versification_keeps_ancestor_order
    (depth : nat) (dir : gmap string CanonDefinition) (name q : string)
    (d : CanonDefinition) :
  extract_scriptures.load_versification depth dir name = Loaded d ->
  ancestor dir name q ->
  exists dq,
    extract_scriptures.load_versification depth dir q = Loaded dq
    /\ default [] (books dq) `sublist_of` default [] (books d)
    /\ extract_scriptures.get_all_books dq
       `sublist_of` extract_scriptures.get_all_books d.
Proof.
  intros Hl Ha.
  destruct (ancestor_books depth dir name q d Hl Ha) as (dq & Hq & Hsub).
  exists dq. split; [done|]. split; [done|].
  by apply sublist_flatten.
Qed.

Lemma load_versification_keeps_ancestor_order_witness :
  exists dq,
    extract_scriptures.load_versification 2 deep_dir "base" = Loaded dq
    /\ default [] (books dq) `sublist_of` default [] (books wider_loaded)
    /\ extract_scriptures.get_all_books dq
       `sublist_of` extract_scriptures.get_all_books wider_loaded.
Proof.
  apply (load_versification_keeps_ancestor_order 2 deep_dir "wider" "base"
           wider_loaded).
  - vm_compute. reflexivity.
  - eapply ancestor_parent; [vm_compute; reflexivity | reflexivity |].
    eapply ancestor_parent; [vm_compute; reflexivity | reflexivity |].
    apply ancestor_self.
Defined.

(** X3. A loaded definition has the name, tradition, [extends],
    [book_count] and [additional_books] of its own document, never its
    parent's; a canon without [extends] is returned exactly as declared,
    so its [additional_books], if it has any, are not applied. *)
Theorem load_versification_own_fields
    (depth : nat) (dir : gmap string CanonDefinition) (name : string)
    (d : CanonDefinition) :
  extract_scriptures.load_versification depth dir name = Loaded d ->
  exists data,
    dir !! name = Some data
    /\ canon_name d = canon_name data
    /\ tradition d = tradition data
    /\ extends d = extends data
    /\ book_count d = book_count data
    /\ additional_books d = additional_books data
    /\ (extends data = None -> d = data).
Proof.
  intros Hl.
  apply load_versification_Loaded in Hl
    as (data & Hd & [(He & ->) | (p & depth' & parent & He & -> & Hp & ->)]);
    exists data; repeat split; try done.
  intros He'. rewrite He in He'. discriminate.
Qed.

Lemma load_versification_own_fields_witness :
  exists data,
    small_dir !! "wide" = Some data
    /\ canon_name wide_loaded = canon_name data
    /\ tradition wide_loaded = tradition data
    /\ extends wide_loaded = extends data
    /\ book_count wide_loaded = book_count data
    /\ additional_books wide_loaded = additional_books data
    /\ (extends data = None -> wide_loaded = data).
Proof.
  apply (load_versification_own_fields 1 small_dir "wide" wide_loaded).
  vm_compute. reflexivity.
Defined.

(** X4. The not-found error always names a document that is really
    missing, and that document is the requested canon or one its
    [extends] chain leads to. *)
Theorem load_versification_error_names_missing
    (depth : nat) (dir : gmap string CanonDefinition) (name m : string) :
  extract_scriptures.load_versification depth dir name = FileNotFound m ->
  dir !! m = None /\ ancestor dir name m.
Proof.
  revert name. induction depth as [|depth IH]; intros name; simpl;
    destruct (dir !! name) as [data|] eqn:Hd.
  - by destruct (extends data).
  - intros [= <-]. split; [done | constructor].
  - destruct (extends data) as [p|] eqn:He; [|done].
    destruct (extract_scriptures.load_versification depth dir p)
      as [parent| m' |] eqn:Hp; try done.
    intros [= ->]. destruct (IH p Hp) as [Hm Ha].
    split; [done|]. by eapply ancestor_parent.
  - intros [= <-]. split; [done | constructor].
Qed.

Lemma load_versification_error_names_missing_witness :
  small_dir !! "ghost" = None /\ ancestor small_dir "orphan" "ghost".
Proof.
  apply (load_versification_error_names_missing 3 small_dir "orphan" "ghost").
  vm_compute. reflexivity.
Defined.

(** X5. A definition is returned only for a canon whose [extends] chain
    ends: at a canon without [extends], within the recursion depth. *)
Theorem load_versification_returns_only_resolved
    (depth : nat) (dir : gmap string CanonDefinition) (name : string)
    (d : CanonDefinition) :
  extract_scriptures.load_versification depth dir name = Loaded d ->
  exists n, (n <= depth)%nat /\ resolves dir name n.
Proof.
  revert name d. induction depth as [|depth IH]; intros name d Hl;
    apply load_versification_Loaded in Hl
      as (data & Hd & [(He & _) | (p & depth' & parent & He & E & Hp & _)]).
  - exists 0%nat. split; [lia|]. by eapply resolves_root.
  - discriminate.
  - exists 0%nat. split; [lia|]. by eapply resolves_root.
  - injection E as <-. destruct (IH p parent Hp) as (n & Hn & Hr).
    exists (S n). split; [lia|]. by eapply resolves_child.
Qed.

Lemma load_versification_returns_only_resolved_witness :
  exists n, (n <= 4)%nat /\ resolves small_dir "wide" n.
Proof.
  apply (load_versification_returns_only_resolved 4 small_dir "wide"
           wide_loaded).
  vm_compute. reflexivity.
Defined.

(** X6. Where every canon on the [extends] chain has a document that
    itself declares [extends] (the chain runs in a circle), loading
    returns neither a definition nor the not-found error, however deep
    the recursion may go. *)
Theorem load_versification_circular
    (dir : gmap string CanonDefinition) (name : string) :
  (forall q, ancestor dir name q ->
     exists data p, dir !! q = Some data /\ extends data = Some p) ->
  forall depth,
    extract_scriptures.load_versification depth dir name = Diverges.
Proof.
  intros H depth. revert name H.
  induction depth as [|depth IH]; intros name H;
    destruct (H name (ancestor_self dir name)) as (data & p & Hd & He);
    simpl; rewrite Hd, He; [done|].
  rewrite (IH p); [done|].
  intros q Hq. apply H. by eapply ancestor_parent.
Qed.

Lemma load_versification_circular_witness :
  extract_scriptures.load_versification 0 loop_dir "loop" = Diverges
  /\ extract_scriptures.load_versification 1000 loop_dir "loop" = Diverges.
Proof.
  assert (forall q, ancestor loop_dir "loop" q ->
            exists data p, loop_dir !! q = Some data /\ extends data = Some p)
    as H.
  { intros q Hq. assert (q = "loop") as ->.
    { induction Hq as [|name data p q Hd He _ IH]; [done|].
      unfold loop_dir in Hd.
      destruct (decide (name = "loop")) as [->|Hne].
      - rewrite lookup_singleton_eq in Hd. injection Hd as <-.
        injection He as <-. by apply IH.
      - by rewrite lookup_singleton_ne in Hd. }
    eexists _, _. split; [apply lookup_singleton_eq | reflexivity]. }
  split; apply (load_versification_circular loop_dir "loop" H).
Defined.

(* ================================================================== *)
(** * Further properties of the parsers *)
(* ================================================================== *)

Section ParserFacts.
Import Text Re extract_scriptures.

Lemma split_ws_spaceless cur s :
  Forall (fun c => isspace c = false) cur ->
  Forall (fun w => w <> [] /\ Forall (fun c => isspace c = false) w)
    (split_ws cur s).
Proof.
  revert cur. induction s as [|c s IH]; intros cur Hcur; simpl.
  - destruct cur as [|x cur]; constructor; [|constructor].
    split; [|by apply Forall_rev].
    intros H. apply (f_equal length) in H. rewrite length_rev in H. done.
  - destruct (isspace c) eqn:E.
    + destruct cur as [|x cur]; [by apply IH|]. constructor; [|by apply IH].
      split; [|by apply Forall_rev].
      intros H. apply (f_equal length) in H. rewrite length_rev in H. done.
    + apply IH. by constructor.
Qed.

Lemma normalize_single_spaced s : single_spaced (normalize s).
Proof. exists (split_ws [] s). split; [done|]. by apply split_ws_spaceless. Qed.

Lemma search_from_sound p pos s g :
  search_from p pos s = Some g ->
  exists u v n, s = u ++ v /\ match_at p (pos + length u) v = Some (g, n).
Proof.
  revert pos. induction s as [|c s IH]; intros pos; simpl.
  - destruct (match_at p pos []) as [[g' n]|] eqn:E; [|done].
    intros [= ->]. exists [], [], n. by rewrite Nat.add_0_r.
  - destruct (match_at p pos (c :: s)) as [[g' n]|] eqn:E.
    + intros [= ->]. exists [], (c :: s), n. by rewrite Nat.add_0_r.
    + intros H. apply IH in H as (u & v & n & -> & H).
      exists (c :: u), v, n. split; [done|].
      by replace (pos + length (c :: u))%nat with (S pos + length u)%nat
        by (simpl; lia).
Qed.

Lemma int_digits_nonneg ds :
  Forall (fun c => isdigit c = true) ds -> (0 <= int ds)%Z.
Proof.
  intros _. unfold int.
  assert (forall acc, (0 <= acc)%Z ->
            (0 <= fold_left
                    (fun acc c => 10 * acc + Z.of_N (digit_value c)) ds acc)%Z)
    as G; [|by apply G].
  induction ds as [|c ds IH]; intros acc Hacc; simpl; [done|].
  apply IH. lia.
Qed.

(** The verse number of a reference of the split: the digits after its
    only colon. *)
Lemma markers_verse_number output ref body :
  (ref, body) ∈ markers output ->
  exists u digits,
    re_search verse_number_pattern (strip ref) = Some digits
    /\ strip ref = u ++ ":"%c :: digits
    /\ digits <> []
    /\ Forall (fun c => isdigit c = true) digits.
Proof.
  intros Hin.
  destruct (markers_have_verse_number output ref body Hin) as [digits Hs].
  unfold markers, re_split in Hin.
  apply split_from_refs in Hin as (pos' & s' & n & Hm).
  apply match_at_sound in Hm as (p1 & p2 & p3 & s2 & s3 & _ & Hg & _).
  apply marker_group_shape in Hg as (x & d & ds & Eref & Hd).
  unfold re_search in Hs. pose proof Hs as Hs'.
  apply search_from_sound in Hs' as (u & v & n' & Euv & Hm).
  apply match_at_sound in Hm as (q1 & q2 & q3 & t2 & t3 & H1 & H2 & H3).
  cbn [pre grp post verse_number_pattern] in H1, H2, H3.
  apply Matches_cls_inv in H1 as (c & -> & ->%N.eqb_eq & _).
  apply Matches_plus_cls in H2 as (e & es & E2 & He & Hes).
  apply (app_inv_tail t2 digits (e :: es)) in E2 as ->.
  assert (t2 = []) as ->.
  { inversion H3 as [| | | | | | | |? ? [-> | ->]]; subst; [done|].
    exfalso. rewrite Eref in Euv.
    apply (f_equal last) in Euv.
    rewrite (last_app u), (last_app x) in Euv.
    change (":"%c :: (e :: es) ++ [newline])
      with ((":"%c :: e :: es) ++ [newline]) in Euv.
    rewrite last_snoc in Euv.
    change (":"%c :: d :: ds) with ([":"%c] ++ d :: ds) in Euv.
    rewrite last_app in Euv.
    destruct (last (d :: ds)) as [z|] eqn:El.
    - injection Euv as ->. apply last_Some_elem_of in El.
      rewrite Forall_forall in Hd. by apply Hd in El.
    - by apply last_None in El. }
  exists u, (e :: es). rewrite app_nil_r in Euv.
  split; [done|]. split; [done|]. split; [done | by constructor].
Qed.

End ParserFacts.

Section ParserShape.
Import Text Re.

(** Both loop bodies on a reference of the split. *)
Lemma verse_of_marker output ref body :
  (ref, body) ∈ markers output ->
  extract_bibles.verse_of ref body
  = (if nonempty (strip body) then [verse_at (ref, body)] else [])
  /\ extract_scriptures.verse_of ref body
  = (if nonempty (strip body)
        && negb (extract_scriptures.is_placeholder_text (strip body))
     then [verse_at (ref, body)] else []).
Proof.
  intros Hin.
  destruct (markers_verse_number output ref body Hin) as (u & digits & Hs & _).
  unfold extract_bibles.verse_of, extract_scriptures.verse_of, verse_at.
  simpl. rewrite Hs. simpl.
  destruct (strip body) as [|c s']; [done|]. simpl.
  by destruct (extract_scriptures.is_placeholder_text (c :: s')).
Qed.

Lemma concat_fmap_filter {A B} (f : A -> list B) (g : A -> B) (P : A -> bool)
    (l : list A) :
  Forall (fun x => f x = if P x then [g x] else []) l ->
  concat (f <$> l) = g <$> List.filter P l.
Proof.
  induction 1 as [|x l Hx _ IH]; [done|].
  rewrite fmap_cons. cbn [concat List.filter]. rewrite Hx, IH.
  by destruct (P x).
Qed.

Lemma filter_sublist_and {A} (P Q : A -> bool) (l : list A) :
  List.filter (fun x => P x && Q x) l `sublist_of` List.filter P l.
Proof.
  induction l as [|x l IH]; simpl; [done|].
  destruct (P x), (Q x); simpl; try done.
  - by apply sublist_skip.
  - by apply sublist_cons.
Qed.

Lemma single_spaced_chars s :
  single_spaced s -> Forall (fun c => isspace c = true -> c = " "%c) s.
Proof.
  intros (ws & -> & Hws).
  induction Hws as [|w ws [_ Hw] Hws IH]; simpl; [constructor|].
  assert (Forall (fun c => isspace c = true -> c = " "%c) w) as Hw'.
  { eapply Forall_impl; [exact Hw|]. simpl. congruence. }
  destruct ws as [|w' ws]; [done|].
  apply Forall_app. split; [done|]. by constructor.
Qed.

Lemma baseline_parse_markers output book_id chapter :
  extract_bibles.parse_diatheke_output output book_id chapter
  = verse_at <$> List.filter (fun rb => nonempty (strip rb.2))
                   (markers output).
Proof.
  unfold extract_bibles.parse_diatheke_output.
  rewrite verses_of_pairs. apply concat_fmap_filter.
  apply Forall_forall. intros [ref body] Hin.
  by destruct (verse_of_marker output ref body Hin).
Qed.

Lemma hardened_parse_markers output book_id chapter :
  extract_scriptures.parse_diatheke_output output book_id chapter
  = verse_at <$> List.filter
                   (fun rb =>
                      nonempty (strip rb.2)
                      && negb (extract_scriptures.is_placeholder_text
                                 (strip rb.2)))
                   (markers output).
Proof.
  unfold extract_scriptures.parse_diatheke_output.
  rewrite verses_of_pairs. apply concat_fmap_filter.
  apply Forall_forall. intros [ref body] Hin.
  by destruct (verse_of_marker output ref body Hin).
Qed.

End ParserShape.

(** X7. The two parsers read the same references in the same order.
    The baseline parser emits one verse for every reference whose body
    is not blank; the hardened parser emits the same verses except
    those whose body is a placeholder.  So the hardened result is the
    baseline result with verses left out, none added, changed or moved. *)
Theorem parsers_one_verse_per_reference
    (output : list char) (book_id : string) (chapter : Z) :
  extract_bibles.parse_diatheke_output output book_id chapter
  = verse_at <$> List.filter (fun rb => Text.nonempty (Text.strip rb.2))
                   (markers output)
  /\ extract_scriptures.parse_diatheke_output output book_id chapter
  = verse_at <$> List.filter
                   (fun rb =>
                      Text.nonempty (Text.strip rb.2)
                      && negb (extract_scriptures.is_placeholder_text
                                 (Text.strip rb.2)))
                   (markers output)
  /\ extract_scriptures.parse_diatheke_output output book_id chapter
     `sublist_of` extract_bibles.parse_diatheke_output output book_id chapter.
Proof.
  split; [apply baseline_parse_markers|].
  split; [apply hardened_parse_markers|].
  rewrite baseline_parse_markers, hardened_parse_markers.
  apply fmap_sublist.
  apply (filter_sublist_and (fun rb => Text.nonempty (Text.strip rb.2))).
Qed.

(** X8. The text of every verse, from either parser, consists of words
    without whitespace joined by single spaces: line breaks and runs of
    blanks inside a body become one space, and nothing but a space is
    left of the whitespace. *)
Theorem parsed_text_single_spaced
    (output : list char) (book_id : string) (chapter : Z) (v : Verse) :
  v ∈ extract_scriptures.parse_diatheke_output output book_id chapter
  \/ v ∈ extract_bibles.parse_diatheke_output output book_id chapter ->
  single_spaced (text v)
  /\ Forall (fun c => Text.isspace c = true -> c = " "%c) (text v).
Proof.
  unfold extract_scriptures.parse_diatheke_output,
    extract_bibles.parse_diatheke_output.
  intros [Hv | Hv];
    apply elem_of_verses_of in Hv as (ref & body & _ & Hv).
  - unfold extract_scriptures.verse_of in Hv.
    destruct (Re.re_search _ _); [|by apply elem_of_nil in Hv].
    destruct (Text.strip body); [by apply elem_of_nil in Hv|].
    destruct (extract_scriptures.is_placeholder_text _);
      [by apply elem_of_nil in Hv|].
    apply list_elem_of_singleton in Hv as ->. simpl.
    split; [|apply single_spaced_chars]; apply normalize_single_spaced.
  - unfold extract_bibles.verse_of in Hv.
    destruct (Re.re_search _ _); [|by apply elem_of_nil in Hv].
    destruct (Text.strip body); [by apply elem_of_nil in Hv|].
    apply list_elem_of_singleton in Hv as ->. simpl.
    split; [|apply single_spaced_chars]; apply normalize_single_spaced.
Qed.

Lemma parsed_text_single_spaced_witness :
  single_spaced (str "The LORD is my shepherd; I shall not want. He maketh me to lie down in green pastures.")
  /\ Forall (fun c => Text.isspace c = true -> c = " "%c)
       (str "The LORD is my shepherd; I shall not want. He maketh me to lie down in green pastures.").
Proof.
  pose proof (parsed_text_single_spaced
           (str "Psalm 23:1: The LORD is my shepherd; I shall not want."
            ++ [Text.newline]
            ++ str "He maketh me to lie down in green pastures."
            ++ [Text.newline; Text.newline] ++ str "(KJV)") "Ps" 23
           {| number := 1;
              text := str "The LORD is my shepherd; I shall not want. He maketh me to lie down in green pastures." |})
    as H.
  cbn [text] in H. apply H.
  right. vm_compute. apply list_elem_of_here.
Defined.

(** X9. Every verse, from either parser, comes from a reference of the
    output: its number is the decimal value of the digits that follow
    the colon of the trimmed reference (so it is never negative), and
    its text is the normalised body of that reference. *)
Theorem parsed_verse_number
    (output : list char) (book_id : string) (chapter : Z) (v : Verse) :
  v ∈ extract_scriptures.parse_diatheke_output output book_id chapter
  \/ v ∈ extract_bibles.parse_diatheke_output output book_id chapter ->
  exists ref body u digits,
    (ref, body) ∈ markers output
    /\ Text.strip ref = u ++ ":"%c :: digits
    /\ digits <> []
    /\ Forall (fun c => Text.isdigit c = true) digits
    /\ number v = Text.int digits
    /\ (0 <= number v)%Z
    /\ text v = Text.normalize (Text.strip body).
Proof.
  assert (forall l : list (list char * list char),
            v ∈ verse_at <$> l -> l ⊆ markers output ->
            exists ref body u digits,
              (ref, body) ∈ markers output
              /\ Text.strip ref = u ++ ":"%c :: digits
              /\ digits <> []
              /\ Forall (fun c => Text.isdigit c = true) digits
              /\ number v = Text.int digits
              /\ (0 <= number v)%Z
              /\ text v = Text.normalize (Text.strip body)) as G.
  { intros l ([ref body] & -> & Hin)%list_elem_of_fmap Hsub.
    apply Hsub in Hin.
    destruct (markers_verse_number output ref body Hin)
      as (u & digits & Hs & Eref & Hne & Hd).
    exists ref, body, u, digits. unfold verse_at. simpl. rewrite Hs. simpl.
    repeat split; try done. by apply int_digits_nonneg. }
  assert (forall (P : list char * list char -> bool),
            List.filter P (markers output) ⊆ markers output) as Hf.
  { intros P x Hx. apply list_elem_of_In in Hx.
    apply filter_In in Hx as [Hx _]. by apply list_elem_of_In. }
  intros [Hv | Hv].
  - rewrite hardened_parse_markers in Hv. eapply G; [exact Hv | apply Hf].
  - rewrite baseline_parse_markers in Hv. eapply G; [exact Hv | apply Hf].
Qed.

Lemma parsed_verse_number_witness :
  exists ref body u digits,
    (ref, body) ∈ markers (str "John 3:16: For God so loved the world.")
    /\ Text.strip ref = u ++ ":"%c :: digits
    /\ digits <> []
    /\ Forall (fun c => Text.isdigit c = true) digits
    /\ 16%Z = Text.int digits
    /\ (0 <= 16)%Z
    /\ str "For God so loved the world." = Text.normalize (Text.strip body).
Proof.
  apply (parsed_verse_number (str "John 3:16: For God so loved the world.")
           "John" 3
           {| number := 16; text := str "For God so loved the world." |}).
  left. vm_compute. apply list_elem_of_here.
Defined.

(* ================================================================== *)
(** * The extraction loops *)
(* ================================================================== *)

Section Loops.
Variable run_diatheke : list char -> list char -> list char.

Lemma filter_fmap_seqZ_sublist {A} (f : Z -> A) (g : A -> Z) (P : A -> bool)
    (m n : Z) :
  (forall z, g (f z) = z) ->
  g <$> List.filter P (f <$> seqZ m n) `sublist_of` seqZ m n.
Proof.
  intros Hg. induction (seqZ m n) as [|z l IH]; simpl; [done|].
  destruct (P (f z)); simpl.
  - rewrite Hg. by apply sublist_skip.
  - by apply sublist_cons.
Qed.

Lemma elem_of_filter_fmap {A B} (f : A -> B) (P : B -> bool) (l : list A) y :
  y ∈ List.filter P (f <$> l) <-> exists x, x ∈ l /\ y = f x /\ P y = true.
Proof.
  rewrite list_elem_of_In, filter_In, <- list_elem_of_In, list_elem_of_fmap.
  split.
  - intros [(x & -> & Hx) HP]. by exists x.
  - intros (x & Hx & -> & HP). split; [by exists x | done].
Qed.

Lemma sublist_concat_fmap {A B} (f : A -> list B) (g : A -> B) (l : list A) :
  (forall x, f x = [] \/ f x = [g x]) ->
  concat (f <$> l) `sublist_of` g <$> l.
Proof.
  intros H. induction l as [|x l IH]; [done|].
  rewrite !fmap_cons. cbn [concat].
  destruct (H x) as [-> | ->]; simpl.
  - by apply sublist_cons.
  - by apply sublist_skip.
Qed.

Lemma elem_of_concat_fmap {A B} (f : A -> list B) (l : list A) y :
  y ∈ concat (f <$> l) <-> exists x, x ∈ l /\ y ∈ f x.
Proof.
  induction l as [|x l IH].
  - simpl. split; [by intros ?%elem_of_nil | by intros (x & ?%elem_of_nil & _)].
  - rewrite fmap_cons. cbn [concat]. rewrite elem_of_app, IH. split.
    + intros [H | (x' & Hx & Hy)].
      * exists x. split; [apply list_elem_of_here | done].
      * exists x'. split; [by apply list_elem_of_further | done].
    + intros (x' & Hx & Hy). apply elem_of_cons in Hx as [-> | Hx]; eauto.
Qed.

Lemma scriptures_get_chapter_number module book_id book_name z :
  chapter_number
    (extract_scriptures.get_chapter run_diatheke module book_id book_name z)
  = z.
Proof. reflexivity. Qed.

Lemma scriptures_get_book_chapter module book ch :
  ch ∈ book_chapters (extract_scriptures.get_book run_diatheke module book) <->
  (1 <= chapter_number ch <= unit_chapters book)%Z
  /\ verses ch <> []
  /\ ch = extract_scriptures.get_chapter run_diatheke module (unit_id book)
            (Text.of_string (unit_name book)) (chapter_number ch).
Proof.
  unfold extract_scriptures.get_book. cbn [book_chapters].
  rewrite elem_of_filter_fmap. split.
  - intros (z & Hz & -> & Hv). apply elem_of_seqZ in Hz.
    apply bool_decide_eq_true in Hv.
    rewrite !scriptures_get_chapter_number. split; [lia|]. by split.
  - intros (Hz & Hv & E). exists (chapter_number ch).
    split; [apply elem_of_seqZ; lia|]. split; [done|].
    by apply bool_decide_eq_true.
Qed.

Lemma extracted_book_cases module book :
  extract_scriptures.extracted_book run_diatheke module book = []
  \/ extract_scriptures.extracted_book run_diatheke module book
     = [extract_scriptures.get_book run_diatheke module book]
     /\ extract_scriptures.check_book_exists run_diatheke module
          (Text.of_string (unit_name book)) = true
     /\ book_chapters (extract_scriptures.get_book run_diatheke module book)
        <> [].
Proof.
  unfold extract_scriptures.extracted_book.
  destruct (extract_scriptures.check_book_exists _ _ _); [|by left].
  cbv zeta.
  destruct (book_chapters (extract_scriptures.get_book run_diatheke module book))
    eqn:E; [by left | by right].
Qed.

End Loops.

(** X10. A book returned by [get_book] of the hardened extractor has
    the id, name and testament it was asked for, and exactly those
    chapters from 1 to the chapter count whose reference gave at least
    one verse, in ascending order; with a chapter count below 1 it has
    none. *)
Theorem get_book_chapters
    (run_diatheke : list char -> list char -> list char)
    (module : list char) (book : BookUnit) :
  let b := extract_scriptures.get_book run_diatheke module book in
  book_id b = unit_id book /\ book_name b = unit_name book
  /\ book_testament b = unit_testament book
  /\ (forall ch,
        ch ∈ book_chapters b <->
        (1 <= chapter_number ch <= unit_chapters book)%Z
        /\ verses ch <> []
        /\ ch = extract_scriptures.get_chapter run_diatheke module
                  (unit_id book) (Text.of_string (unit_name book))
                  (chapter_number ch))
  /\ chapter_number <$> book_chapters b `sublist_of` seqZ 1 (unit_chapters book)
  /\ ((unit_chapters book < 1)%Z -> book_chapters b = []).
Proof.
  cbv zeta. split; [done|]. split; [done|]. split; [done|].
  split; [apply scriptures_get_book_chapter|]. split.
  - unfold extract_scriptures.get_book. cbn [book_chapters].
    apply filter_fmap_seqZ_sublist. intros z. reflexivity.
  - intros Hlt. unfold extract_scriptures.get_book. cbn [book_chapters].
    unfold seqZ. replace (Z.to_nat (unit_chapters book)) with 0%nat by lia.
    done.
Qed.

(** X11. The books [extract_scripture] returns are books of the
    flattened canon, in the canon's order, none invented: each is what
    [get_book] gives for a unit that passed [check_book_exists], each
    has at least one chapter, each chapter at least one verse, and each
    verse a non-empty text.  The content line is the module's
    description. *)
Theorem extract_scripture_books
    (run_diatheke : list char -> list char -> list char)
    (module : list char) (meta : extract_scriptures.Meta)
    (versification : CanonDefinition) :
  let c := extract_scriptures.extract_scripture run_diatheke module meta
             versification in
  content c = extract_scriptures.description meta
  /\ content_books c
     `sublist_of`
     (extract_scriptures.get_book run_diatheke module
        <$> extract_scriptures.get_all_books versification)
  /\ book_id <$> content_books c
     `sublist_of` unit_id <$> extract_scriptures.get_all_books versification
  /\ (forall b, b ∈ content_books c ->
        extract_scriptures.check_book_exists run_diatheke module
          (Text.of_string (book_name b)) = true
        /\ book_chapters b <> []
        /\ forall ch, ch ∈ book_chapters b ->
             verses ch <> [] /\ forall v, v ∈ verses ch -> text v <> []).
Proof.
  cbv zeta. unfold extract_scriptures.extract_scripture. cbn [content content_books].
  split; [done|].
  assert (concat (extract_scriptures.extracted_book run_diatheke module
                    <$> extract_scriptures.get_all_books versification)
          `sublist_of`
          (extract_scriptures.get_book run_diatheke module
             <$> extract_scriptures.get_all_books versification)) as Hsub.
  { apply sublist_concat_fmap. intros book.
    destruct (extracted_book_cases run_diatheke module book) as [-> | [-> _]];
      [by left | by right]. }
  split; [done|]. split.
  - apply (fmap_sublist book_id) in Hsub.
    rewrite <- list_fmap_compose in Hsub. exact Hsub.
  - intros b (book & _ & Hb)%elem_of_concat_fmap.
    destruct (extracted_book_cases run_diatheke module book)
      as [E | (E & Hc & Hne)]; rewrite E in Hb;
      [by apply elem_of_nil in Hb|].
    apply list_elem_of_singleton in Hb as ->.
    split; [exact Hc|]. split; [exact Hne|].
    intros ch (_ & Hv & E')%scriptures_get_book_chapter.
    split; [exact Hv|]. intros v Hin. rewrite E' in Hin.
    unfold extract_scriptures.get_chapter in Hin. cbn [verses] in Hin.
    apply elem_of_verses_of in Hin as (ref & body & _ & Hin).
    by eapply hardened_verse_of_text.
Qed.

Section Silent.
Variable run_diatheke : list char -> list char -> list char.
Hypothesis silent :
  forall module reference, Text.strip (run_diatheke module reference) = [].

Lemma silent_bibles_chapter module book_id book_name chapter :
  verses (extract_bibles.get_chapter run_diatheke module book_id
            book_name chapter) = [].
Proof using silent.
  unfold extract_bibles.get_chapter, extract_bibles.parse_diatheke_output.
  cbn [verses]. by rewrite silent.
Qed.

Lemma filter_fmap_none {A B} (f : A -> B) (P : B -> bool) (l : list A) :
  (forall x, P (f x) = false) -> List.filter P (f <$> l) = [].
Proof.
  intros H. induction l as [|x l IH]; [done|].
  rewrite fmap_cons. cbn [List.filter]. by rewrite H.
Qed.

Lemma concat_fmap_nil {A B} (f : A -> list B) (l : list A) :
  (forall x, f x = []) -> concat (f <$> l) = [].
Proof.
  intros H. induction l as [|x l IH]; [done|].
  rewrite fmap_cons. cbn [concat]. by rewrite H.
Qed.

Lemma silent_main_loop depth dir scriptures i metadata auxiliary :
  extract_scriptures.main_loop run_diatheke depth dir scriptures i
    metadata auxiliary
  = extract_scriptures.Collected metadata auxiliary.
Proof using silent.
  revert i. induction scriptures as [|[module meta] rest IH]; intros i; [done|].
  cbn [extract_scriptures.main_loop].
  unfold extract_scriptures.available. rewrite silent. cbn [Text.nonempty].
  apply IH.
Qed.

End Silent.

(** X12. When the retrieval tool gives nothing but blank output (as
    [run_diatheke] does after every timeout or failure), no book is
    found to exist, [extract_scripture] and [extract_bible] return no
    books, and the loop of [main] skips every module: it collects
    nothing and raises nothing, whatever versifications are missing. *)
Theorem extraction_of_silent_tool
    (run_diatheke : list char -> list char -> list char) :
  (forall module reference,
      Text.strip (run_diatheke module reference) = []) ->
  (forall module book_name,
      extract_scriptures.check_book_exists run_diatheke module book_name
      = false)
  /\ (forall module meta versification,
      content_books (extract_scriptures.extract_scripture run_diatheke
                       module meta versification) = [])
  /\ (forall module meta,
      content_books (extract_bibles.extract_bible run_diatheke module meta)
      = [])
  /\ (forall depth dir scriptures,
      extract_scriptures.main run_diatheke depth dir scriptures
      = extract_scriptures.Collected [] ∅).
Proof.
  intros silent. split; [|split; [|split]].
  - intros module book_name. unfold extract_scriptures.check_book_exists.
    cbv zeta. by rewrite silent.
  - intros module meta versification.
    unfold extract_scriptures.extract_scripture. cbn [content_books].
    apply concat_fmap_nil. intros book.
    unfold extract_scriptures.extracted_book,
      extract_scriptures.check_book_exists. cbv zeta. by rewrite silent.
  - intros module meta. unfold extract_bibles.extract_bible.
    cbn [content_books]. apply concat_fmap_nil.
    intros [[[book_id book_name] testament] num_chapters].
    unfold extract_bibles.extracted_book, extract_bibles.get_book.
    cbn [book_chapters]. rewrite filter_fmap_none; [done|].
    intros z. rewrite (silent_bibles_chapter run_diatheke silent).
    apply bool_decide_eq_false. by intros H.
  - intros depth dir scriptures. unfold extract_scriptures.main.
    by apply silent_main_loop.
Qed.

Lemma extraction_of_silent_tool_witness :
  extract_scriptures.main (fun _ _ => []) 2 small_dir
    [(str "KJV",
      {| extract_scriptures.meta_id := "kjv";
         extract_scriptures.title := "King James Version (1769)";
         extract_scriptures.description := "The Authorized Version";
         extract_scriptures.abbrev := "KJV";
         extract_scriptures.language := "en";
         extract_scriptures.versification := "protestant";
         extract_scriptures.tags := ["English"] |})]
  = extract_scriptures.Collected [] ∅.
Proof.
  apply (extraction_of_silent_tool (fun _ _ => [])). reflexivity.
Defined.

Section Discover.
Variable run_diatheke : list char -> list char -> list char.
Import extract_scriptures.

Lemma discover_loop_seqZ module book_name (n : nat) (m : Z) :
  match discover_loop run_diatheke module book_name (seqZ m (Z.of_nat n)) with
  | Some r =>
      exists ch, (m <= ch < m + Z.of_nat n)%Z /\ r = (ch - 1)%Z
        /\ no_content module (probe run_diatheke module book_name ch) = true
        /\ forall c, (m <= c < ch)%Z ->
             no_content module (probe run_diatheke module book_name c) = false
  | None =>
      forall c, (m <= c < m + Z.of_nat n)%Z ->
        no_content module (probe run_diatheke module book_name c) = false
  end.
Proof.
  revert m. induction n as [|n IH]; intros m.
  - simpl. intros c Hc. lia.
  - rewrite Nat2Z.inj_succ, seqZ_cons by lia.
    replace (Z.pred (Z.succ (Z.of_nat n))) with (Z.of_nat n) by lia.
    cbn [discover_loop].
    destruct (no_content module (probe run_diatheke module book_name m)) eqn:E.
    + exists m. split; [lia|]. split; [done|]. split; [done|]. intros c Hc. lia.
    + specialize (IH (Z.succ m)).
      destruct (discover_loop run_diatheke module book_name
                  (seqZ (Z.succ m) (Z.of_nat n))) as [r|].
      * destruct IH as (ch & Hch & -> & Hn & Hpre).
        exists ch. split; [lia|]. split; [done|]. split; [done|].
        intros c Hc. destruct (decide (c = m)) as [-> | Hne]; [done|].
        apply Hpre. lia.
      * intros c Hc. destruct (decide (c = m)) as [-> | Hne]; [done|].
        apply IH. lia.
Qed.

End Discover.

(** X13. [discover_chapters] probes the first verse of the chapters
    [expected], ..., [expected + 4] in turn and returns the chapter
    before the first probe without content; if all five probes have
    content it returns [expected], not a larger count.  The result is
    always between [expected - 1] and [expected + 3]. *)
Theorem discover_chapters_result
    (run_diatheke : list char -> list char -> list char)
    (module book_name : list char) (expected : Z) :
  let r := extract_scriptures.discover_chapters run_diatheke module
             book_name expected in
  (expected - 1 <= r <= expected + 3)%Z
  /\ ((exists ch,
         (expected <= ch < expected + 5)%Z /\ r = (ch - 1)%Z
         /\ extract_scriptures.no_content module
              (extract_scriptures.probe run_diatheke module book_name ch) = true
         /\ forall c, (expected <= c < ch)%Z ->
              extract_scriptures.no_content module
                (extract_scriptures.probe run_diatheke module book_name c) = false)
      \/ (r = expected
          /\ forall c, (expected <= c < expected + 5)%Z ->
               extract_scriptures.no_content module
                 (extract_scriptures.probe run_diatheke module book_name c) = false)).
Proof.
  cbv zeta. unfold extract_scriptures.discover_chapters.
  pose proof (discover_loop_seqZ run_diatheke module book_name 5 expected) as H.
  change (Z.of_nat 5) with 5%Z in H.
  destruct (extract_scriptures.discover_loop run_diatheke module book_name
              (seqZ expected 5)) as [r|]; simpl default.
  - destruct H as (ch & Hch & -> & Hn & Hpre). split; [lia|]. left.
    by exists ch.
  - split; [lia|]. by right.
Qed.

Section Main.
Variable run_diatheke : list char -> list char -> list char.
Import extract_scriptures.

Lemma main_loop_collected depth dir scriptures i metadata auxiliary :
  all_load run_diatheke depth dir scriptures ->
  exists auxiliary',
    main_loop run_diatheke depth dir scriptures i metadata auxiliary
    = Collected (metadata ++ available_entries run_diatheke scriptures i)
        auxiliary'
    /\ dom auxiliary'
       = dom auxiliary
         ∪ list_to_set (entry_id <$> available_entries run_diatheke scriptures i).
Proof.
  intros H. revert i metadata auxiliary.
  induction H as [|[module meta] rest Hx _ IH]; intros i metadata auxiliary.
  - exists auxiliary. simpl. rewrite app_nil_r. split; [done|].
    by rewrite union_empty_r_L.
  - cbn [main_loop available_entries].
    destruct (available run_diatheke module) eqn:E.
    + destruct (Hx E) as [v Hv]. cbn [snd] in Hv. rewrite Hv.
      destruct (IH (i + 1)%Z (metadata ++ [metadata_entry i meta])
                  (<[meta_id meta := extract_scripture run_diatheke module meta v]>
                     auxiliary)) as (aux' & -> & Hdom).
      exists aux'. rewrite <- app_assoc. split; [done|].
      rewrite Hdom, dom_insert_L, fmap_cons.
      cbn [list_to_set entry_id metadata_entry].
      by rewrite (comm_L (∪) {[meta_id meta]}), <- (assoc_L (∪)).
    + apply IH.
Qed.

Lemma main_loop_raised depth dir pre module meta post i metadata auxiliary e :
  all_load run_diatheke depth dir pre ->
  available run_diatheke module = true ->
  load_versification depth dir (versification meta) = e ->
  (forall v, e <> Loaded v) ->
  main_loop run_diatheke depth dir (pre ++ (module, meta) :: post) i
    metadata auxiliary
  = Raised e.
Proof.
  intros H Ha He Hne. revert i metadata auxiliary.
  induction H as [|[module' meta'] rest Hx _ IH]; intros i metadata auxiliary.
  - cbn [app main_loop]. rewrite Ha, He. destruct e; [by destruct (Hne d) | done | done].
  - cbn [app main_loop].
    destruct (available run_diatheke module') eqn:E; [|apply IH].
    destruct (Hx E) as [v Hv]. cbn [snd] in Hv. rewrite Hv. apply IH.
Qed.

End Main.

(** X14. When every module that passes the availability test names a
    versification that loads, the loop of [main] collects one metadata
    entry per available module, in registry order; the weight of an
    entry is the module's position in the whole registry (counted from
    1, skipped modules included), and the auxiliary dictionary has
    exactly the ids of the collected entries as keys. *)
Theorem main_collects_available_modules
    (run_diatheke : list char -> list char -> list char)
    (depth : nat) (dir : gmap string CanonDefinition)
    (scriptures : list (list char * extract_scriptures.Meta)) :
  Forall (fun e =>
            extract_scriptures.available run_diatheke e.1 = true ->
            exists v,
              extract_scriptures.load_versification depth dir
                (extract_scriptures.versification e.2) = Loaded v)
    scriptures ->
  exists auxiliary,
    extract_scriptures.main run_diatheke depth dir scriptures
    = extract_scriptures.Collected
        (available_entries run_diatheke scriptures 1) auxiliary
    /\ dom auxiliary
       = list_to_set (extract_scriptures.entry_id
                        <$> available_entries run_diatheke scriptures 1).
Proof.
  intros H. unfold extract_scriptures.main.
  destruct (main_loop_collected run_diatheke depth dir scriptures 1 [] ∅ H)
    as (aux & -> & Hdom).
  exists aux. split; [done|]. by rewrite Hdom, dom_empty_L, union_empty_l_L.
Qed.

Lemma main_collects_available_modules_witness :
  exists auxiliary,
    extract_scriptures.main
      (fun module reference =>
         if bool_decide (module = str "KJV") then talkative_tool module reference
         else [])
      1 small_dir [(str "DRC", drc_meta); (str "KJV", kjv_meta)]
    = extract_scriptures.Collected
        [extract_scriptures.metadata_entry 2 kjv_meta] auxiliary
    /\ dom auxiliary = list_to_set ["kjv"].
Proof.
  destruct (main_collects_available_modules
              (fun module reference =>
                 if bool_decide (module = str "KJV")
                 then talkative_tool module reference else [])
              1 small_dir [(str "DRC", drc_meta); (str "KJV", kjv_meta)])
    as (auxiliary & H & Hdom).
  - constructor; [intros H; vm_compute in H; discriminate|].
    constructor; [|constructor].
    intros _. eexists. vm_compute. reflexivity.
  - exists auxiliary. split; [exact H | exact Hdom].
Defined.

(** X15. [main] does not catch the exception of [load_versification]:
    as soon as an available module names a versification that does not
    load, the loop ends with that exception, and what was collected for
    the modules before it is not kept. *)
Theorem main_raises_on_missing_versification
    (run_diatheke : list char -> list char -> list char)
    (depth : nat) (dir : gmap string CanonDefinition)
    (pre post : list (list char * extract_scriptures.Meta))
    (module : list char) (meta : extract_scriptures.Meta) (e : load_result) :
  Forall (fun e =>
            extract_scriptures.available run_diatheke e.1 = true ->
            exists v,
              extract_scriptures.load_versification depth dir
                (extract_scriptures.versification e.2) = Loaded v)
    pre ->
  extract_scriptures.available run_diatheke module = true ->
  extract_scriptures.load_versification depth dir
    (extract_scriptures.versification meta) = e ->
  (forall v, e <> Loaded v) ->
  extract_scriptures.main run_diatheke depth dir
    (pre ++ (module, meta) :: post)
  = extract_scriptures.Raised e.
Proof.
  intros H Ha He Hne. unfold extract_scriptures.main.
  by apply main_loop_raised.
Qed.

Lemma main_raises_on_missing_versification_witness :
  extract_scriptures.main talkative_tool 1 small_dir
    ([(str "KJV", kjv_meta)] ++ (str "DRC", drc_meta) :: [])
  = extract_scriptures.Raised (FileNotFound "ghost").
Proof.
  apply (main_raises_on_missing_versification talkative_tool 1 small_dir
           [(str "KJV", kjv_meta)] [] (str "DRC") drc_meta).
  - constructor; [|constructor]. intros _. eexists. vm_compute. reflexivity.
  - reflexivity.
  - vm_compute. reflexivity.
  - intros v. discriminate.
Defined.

Section Baseline.
Variable run_diatheke : list char -> list char -> list char.

Lemma bibles_get_book_chapter module book_id book_name testament n ch :
  ch ∈ book_chapters (extract_bibles.get_book run_diatheke module book_id
                        book_name testament n) <->
  (1 <= chapter_number ch <= n)%Z
  /\ verses ch <> []
  /\ ch = extract_bibles.get_chapter run_diatheke module book_id
            (Text.of_string book_name) (chapter_number ch).
Proof.
  unfold extract_bibles.get_book. cbn [book_chapters].
  rewrite elem_of_filter_fmap. split.
  - intros (z & Hz & -> & Hv). apply elem_of_seqZ in Hz.
    apply bool_decide_eq_true in Hv.
    change (chapter_number (extract_bibles.get_chapter run_diatheke module
              book_id (Text.of_string book_name) z)) with z.
    split; [lia|]. by split.
  - intros (Hz & Hv & E). exists (chapter_number ch).
    split; [apply elem_of_seqZ; lia|]. split; [done|].
    by apply bool_decide_eq_true.
Qed.

Lemma bibles_extracted_book_cases module row :
  extract_bibles.extracted_book run_diatheke module row = []
  \/ extract_bibles.extracted_book run_diatheke module row
     = [row_book run_diatheke module row]
     /\ book_chapters (row_book run_diatheke module row) <> [].
Proof.
  destruct row as [[[book_id book_name] testament] n].
  unfold extract_bibles.extracted_book, row_book. cbn [fst snd]. cbv zeta.
  destruct (book_chapters (extract_bibles.get_book run_diatheke module book_id
                             book_name testament n)) eqn:E;
    [by left | by right].
Qed.

End Baseline.

(** X16. The books [extract_bible] returns are rows of the fixed book
    table in table order, so never more than 66: each is what [get_book]
    gives for its row, with the row's id, name and testament; each has
    at least one chapter, its chapters are numbered within the row's
    chapter count, and every chapter has at least one verse with
    non-empty text. *)
Theorem extract_bible_books
    (run_diatheke : list char -> list char -> list char)
    (module : list char) (meta : extract_bibles.Meta) :
  let c := extract_bibles.extract_bible run_diatheke module meta in
  content c = extract_bibles.description meta
  /\ (fun b => (book_id b, book_name b, book_testament b)) <$> content_books c
     `sublist_of` (fun row => row.1) <$> extract_bibles.BOOKS
  /\ (length (content_books c) <= 66)%nat
  /\ (forall b, b ∈ content_books c ->
        book_chapters b <> []
        /\ exists row, row ∈ extract_bibles.BOOKS
             /\ row.1 = (book_id b, book_name b, book_testament b)
             /\ forall ch, ch ∈ book_chapters b ->
                  (1 <= chapter_number ch <= row.2)%Z
                  /\ verses ch <> []
                  /\ forall v, v ∈ verses ch -> text v <> []).
Proof.
  cbv zeta. unfold extract_bibles.extract_bible. cbn [content content_books].
  split; [done|].
  assert (concat (extract_bibles.extracted_book run_diatheke module
                    <$> extract_bibles.BOOKS)
          `sublist_of`
          (row_book run_diatheke module <$> extract_bibles.BOOKS)) as Hsub.
  { apply sublist_concat_fmap. intros row.
    destruct (bibles_extracted_book_cases run_diatheke module row)
      as [-> | [-> _]]; [by left | by right]. }
  split; [|split].
  - apply (fmap_sublist (fun b => (book_id b, book_name b, book_testament b)))
      in Hsub.
    rewrite <- list_fmap_compose in Hsub.
    rewrite <- (list_fmap_ext
                 ((fun b => (book_id b, book_name b, book_testament b))
                  ∘ row_book run_diatheke module)
                 (fun row => row.1) extract_bibles.BOOKS); [exact Hsub|].
    by intros i [[[book_id book_name] testament] n] _.
  - apply sublist_length in Hsub. by rewrite length_fmap in Hsub.
  - intros b (row & Hrow & Hb)%elem_of_concat_fmap.
    destruct (bibles_extracted_book_cases run_diatheke module row)
      as [E | (E & Hne)]; rewrite E in Hb; [by apply elem_of_nil in Hb|].
    apply list_elem_of_singleton in Hb as ->.
    split; [exact Hne|]. exists row. split; [done|].
    destruct row as [[[book_id book_name] testament] n].
    split; [done|].
    intros ch (Hn & Hv & E')%bibles_get_book_chapter.
    split; [exact Hn|]. split; [exact Hv|]. intros v Hin. rewrite E' in Hin.
    unfold extract_bibles.get_chapter in Hin. cbn [verses] in Hin.
    apply elem_of_verses_of in Hin as (ref & body & _ & Hin).
    by eapply baseline_verse_of_text.
Qed.

(* ================================================================== *)
(** * The two extractors side by side *)
(* ================================================================== *)

Section SideBySide.
Variable run_diatheke : list char -> list char -> list char.

Lemma hardened_sublist_baseline output book_id chapter :
  extract_scriptures.parse_diatheke_output output book_id chapter
  `sublist_of` extract_bibles.parse_diatheke_output output book_id chapter.
Proof.
  rewrite baseline_parse_markers, hardened_parse_markers.
  apply fmap_sublist.
  apply (filter_sublist_and (fun rb => Text.nonempty (Text.strip rb.2))).
Qed.

Lemma get_chapter_verses_sublist module book_id book_name z :
  verses (extract_scriptures.get_chapter run_diatheke module book_id
            book_name z)
  `sublist_of`
  verses (extract_bibles.get_chapter run_diatheke module book_id
            book_name z).
Proof. apply hardened_sublist_baseline. Qed.

Lemma kept_chapters_sublist module book_id book_name (zs : list Z) :
  chapter_number
    <$> List.filter (fun chapter => bool_decide (verses chapter <> []))
          (extract_scriptures.get_chapter run_diatheke module book_id
             book_name <$> zs)
  `sublist_of`
  chapter_number
    <$> List.filter (fun chapter => bool_decide (verses chapter <> []))
          (extract_bibles.get_chapter run_diatheke module book_id
             book_name <$> zs).
Proof.
  induction zs as [|z zs IH]; [done|].
  rewrite !fmap_cons. cbn [List.filter].
  pose proof (get_chapter_verses_sublist module book_id book_name z) as Hs.
  destruct (bool_decide
              (verses (extract_scriptures.get_chapter run_diatheke module
                         book_id book_name z) <> [])) eqn:E1;
    destruct (bool_decide
                (verses (extract_bibles.get_chapter run_diatheke module
                           book_id book_name z) <> [])) eqn:E2.
  - rewrite !fmap_cons. apply sublist_skip. exact IH.
  - apply bool_decide_eq_true in E1. apply bool_decide_eq_false in E2.
    apply dec_stable in E2. rewrite E2 in Hs. by apply sublist_nil_r in Hs.
  - rewrite fmap_cons. apply sublist_cons. exact IH.
  - exact IH.
Qed.

End SideBySide.

(** X17. For the same retrieval tool, module and book, the hardened
    extractor never finds more than the baseline extractor: the chapters
    of its book are, by number and in order, among the chapters of the
    baseline book, and the verses of each of its chapters are, in order,
    among the verses the baseline book has in the chapter of that
    number. *)
Theorem hardened_book_within_baseline
    (run_diatheke : list char -> list char -> list char)
    (module : list char) (book : BookUnit) :
  let h := extract_scriptures.get_book run_diatheke module book in
  let b := extract_bibles.get_book run_diatheke module (unit_id book)
             (unit_name book) (unit_testament book) (unit_chapters book) in
  chapter_number <$> book_chapters h
    `sublist_of` chapter_number <$> book_chapters b
  /\ forall ch, ch ∈ book_chapters h ->
       exists ch', ch' ∈ book_chapters b
         /\ chapter_number ch' = chapter_number ch
         /\ verses ch `sublist_of` verses ch'.
Proof.
  cbv zeta. split; [apply kept_chapters_sublist|].
  intros ch Hch.
  apply scriptures_get_book_chapter in Hch as (Hz & Hv & E).
  exists (extract_bibles.get_chapter run_diatheke module (unit_id book)
            (Text.of_string (unit_name book)) (chapter_number ch)).
  split; [|split; [done|]].
  - apply bibles_get_book_chapter. split; [done|]. split; [|done].
    intros E2. rewrite E in Hv.
    pose proof (get_chapter_verses_sublist run_diatheke module (unit_id book)
                  (Text.of_string (unit_name book)) (chapter_number ch))
      as Hs.
    rewrite E2 in Hs. by apply sublist_nil_r in Hs.
  - rewrite E at 1. apply get_chapter_verses_sublist.
Qed.

(* ================================================================== *)
(** * The loops of [main] *)
(* ================================================================== *)

Section MainContent.
Variable run_diatheke : list char -> list char -> list char.
Import extract_scriptures.

(** A module of another id leaves the content stored for an id alone. *)
Lemma main_loop_other depth dir scriptures i metadata auxiliary
    metadata' auxiliary' k :
  main_loop run_diatheke depth dir scriptures i metadata auxiliary
  = Collected metadata' auxiliary' ->
  k ∉ (meta_id ∘ snd <$> scriptures) ->
  auxiliary' !! k = auxiliary !! k.
Proof.
  revert i metadata auxiliary.
  induction scriptures as [|[module meta] rest IH];
    intros i metadata auxiliary Hm Hk.
  - simpl in Hm. by injection Hm as _ <-.
  - rewrite fmap_cons in Hk. apply not_elem_of_cons in Hk as [Hk Hrest].
    cbn [main_loop] in Hm. destruct (available run_diatheke module).
    + destruct (load_versification depth dir (versification meta));
        [|done|done].
      rewrite (IH _ _ _ Hm Hrest). by apply lookup_insert_ne.
    + by apply (IH _ _ _ Hm).
Qed.

Lemma main_loop_lookup depth dir scriptures i metadata auxiliary
    metadata' auxiliary' module meta :
  main_loop run_diatheke depth dir scriptures i metadata auxiliary
  = Collected metadata' auxiliary' ->
  NoDup (meta_id ∘ snd <$> scriptures) ->
  (module, meta) ∈ scriptures ->
  available run_diatheke module = true ->
  exists v,
    load_versification depth dir (versification meta) = Loaded v
    /\ auxiliary' !! meta_id meta
       = Some (extract_scripture run_diatheke module meta v).
Proof.
  revert i metadata auxiliary.
  induction scriptures as [|[module' meta'] rest IH];
    intros i metadata auxiliary Hm Hnd Hin Ha; [by apply elem_of_nil in Hin|].
  rewrite fmap_cons in Hnd. apply NoDup_cons in Hnd as [Hfresh Hnd].
  cbn [main_loop] in Hm. apply elem_of_cons in Hin as [[= <- <-] | Hin].
  - rewrite Ha in Hm.
    destruct (load_versification depth dir (versification meta)) as [v| |];
      [|done|done].
    exists v. split; [done|].
    rewrite (main_loop_other _ _ _ _ _ _ _ _ (meta_id meta) Hm Hfresh).
    by apply lookup_insert_eq.
  - destruct (available run_diatheke module').
    + destruct (load_versification depth dir (versification meta'));
        [|done|done].
      by apply (IH _ _ _ Hm).
    + by apply (IH _ _ _ Hm).
Qed.

End MainContent.

(** X18. When the loop of [main] ends without an exception and no two
    modules of the registry share an id, every module that passed the
    availability test has a versification that loaded, and the
    auxiliary dictionary holds under the module's id exactly what
    [extract_scripture] gave for the module and that versification. *)
Theorem main_stores_extracted_content
    (run_diatheke : list char -> list char -> list char)
    (depth : nat) (dir : gmap string CanonDefinition)
    (scriptures : list (list char * extract_scriptures.Meta))
    (metadata : list extract_scriptures.BibleEntry)
    (auxiliary : gmap string Content)
    (module : list char) (meta : extract_scriptures.Meta) :
  extract_scriptures.main run_diatheke depth dir scriptures
  = extract_scriptures.Collected metadata auxiliary ->
  NoDup (extract_scriptures.meta_id ∘ snd <$> scriptures) ->
  (module, meta) ∈ scriptures ->
  extract_scriptures.available run_diatheke module = true ->
  exists v,
    extract_scriptures.load_versification depth dir
      (extract_scriptures.versification meta) = Loaded v
    /\ auxiliary !! extract_scriptures.meta_id meta
       = Some (extract_scriptures.extract_scripture run_diatheke module
                 meta v).
Proof.
  unfold extract_scriptures.main. intros Hm Hnd Hin Ha.
  by apply (main_loop_lookup run_diatheke depth dir scriptures 1 [] ∅
              metadata auxiliary).
Qed.

Lemma main_stores_extracted_content_witness :
  exists v,
    extract_scriptures.load_versification 1 small_dir "base" = Loaded v
    /\ ({[ "kjv" := extract_scriptures.extract_scripture kjv_tool (str "KJV")
                      kjv_meta base_doc ]} : gmap string Content) !! "kjv"
       = Some (extract_scriptures.extract_scripture kjv_tool (str "KJV")
                 kjv_meta v).
Proof.
  apply (main_stores_extracted_content kjv_tool 1 small_dir
           [(str "DRC", drc_meta); (str "KJV", kjv_meta)]
           [extract_scriptures.metadata_entry 2 kjv_meta]
           {[ "kjv" := extract_scriptures.extract_scripture kjv_tool
                         (str "KJV") kjv_meta base_doc ]}
           (str "KJV") kjv_meta).
  - reflexivity.
  - repeat constructor; vm_compute; intros H.
    + apply elem_of_cons in H as [H|H];
        [discriminate|by apply elem_of_nil in H].
    + by apply elem_of_nil in H.
  - apply list_elem_of_further, list_elem_of_here.
  - reflexivity.
Defined.

Section BaselineMain.
Variable run_diatheke : list char -> list char -> list char.
Import extract_bibles.

Lemma bibles_main_loop_metadata modules i metadata auxiliary :
  (main_loop run_diatheke modules i metadata auxiliary).1
  = metadata ++ available_modules run_diatheke modules i.
Proof.
  revert i metadata auxiliary.
  induction modules as [|[module meta] rest IH]; intros i metadata auxiliary.
  - simpl. by rewrite app_nil_r.
  - cbn [main_loop available_modules].
    destruct (available run_diatheke module); [|apply IH].
    rewrite IH. by rewrite <- app_assoc.
Qed.

(** A module of another id leaves the content stored for an id alone. *)
Lemma bibles_main_loop_other modules i metadata auxiliary k :
  k ∉ (meta_id ∘ snd <$> modules) ->
  (main_loop run_diatheke modules i metadata auxiliary).2 !! k
  = auxiliary !! k.
Proof.
  revert i metadata auxiliary.
  induction modules as [|[module meta] rest IH]; intros i metadata auxiliary Hk;
    [done|].
  rewrite fmap_cons in Hk. apply not_elem_of_cons in Hk as [Hk Hrest].
  cbn [main_loop]. destruct (available run_diatheke module).
  - rewrite IH by done. by apply lookup_insert_ne.
  - by apply IH.
Qed.

Lemma bibles_main_loop_lookup modules i metadata auxiliary module meta :
  NoDup (meta_id ∘ snd <$> modules) ->
  (module, meta) ∈ modules ->
  available run_diatheke module = true ->
  (main_loop run_diatheke modules i metadata auxiliary).2 !! meta_id meta
  = Some (extract_bible run_diatheke module meta).
Proof.
  revert i metadata auxiliary.
  induction modules as [|[module' meta'] rest IH];
    intros i metadata auxiliary Hnd Hin Ha; [by apply elem_of_nil in Hin|].
  rewrite fmap_cons in Hnd. apply NoDup_cons in Hnd as [Hfresh Hnd].
  cbn [main_loop]. apply elem_of_cons in Hin as [[= <- <-] | Hin].
  - rewrite Ha. rewrite bibles_main_loop_other by done.
    by apply lookup_insert_eq.
  - destruct (available run_diatheke module'); by apply IH.
Qed.

Lemma bibles_main_loop_dom modules i metadata auxiliary :
  dom (main_loop run_diatheke modules i metadata auxiliary).2
  = dom auxiliary
    ∪ list_to_set (entry_id <$> available_modules run_diatheke modules i).
Proof.
  revert i metadata auxiliary.
  induction modules as [|[module meta] rest IH]; intros i metadata auxiliary.
  - simpl. by rewrite union_empty_r_L.
  - cbn [main_loop available_modules].
    destruct (available run_diatheke module); [|apply IH].
    rewrite IH, dom_insert_L, fmap_cons.
    cbn [list_to_set entry_id metadata_entry].
    by rewrite (comm_L (∪) {[meta_id meta]}), <- (assoc_L (∪)).
Qed.

End BaselineMain.

(** X19. The loop of the baseline [main] collects one metadata entry
    per module that passes the availability test, in registry order,
    the weight of an entry being the module's position in the whole
    registry (counted from 1, skipped modules included); the keys of
    the auxiliary dictionary are the ids of the collected entries.
    Both hold for every registry.  When, moreover, no two modules of
    the registry share an id, every available module finds under its
    id the content [extract_bible] gave for it. *)
Theorem bibles_main_collects
    (run_diatheke : list char -> list char -> list char)
    (modules : list (list char * extract_bibles.Meta)) :
  (extract_bibles.main run_diatheke modules).1
  = available_modules run_diatheke modules 1
  /\ dom (extract_bibles.main run_diatheke modules).2
     = list_to_set (extract_bibles.entry_id
                      <$> available_modules run_diatheke modules 1)
  /\ (NoDup (extract_bibles.meta_id ∘ snd <$> modules) ->
      forall module meta,
        (module, meta) ∈ modules ->
        extract_bibles.available run_diatheke module = true ->
        (extract_bibles.main run_diatheke modules).2
          !! extract_bibles.meta_id meta
        = Some (extract_bibles.extract_bible run_diatheke module meta)).
Proof.
  unfold extract_bibles.main. split; [|split].
  - by rewrite bibles_main_loop_metadata.
  - by rewrite bibles_main_loop_dom, dom_empty_L, union_empty_l_L.
  - intros Hnd module meta Hin Ha. by apply bibles_main_loop_lookup.
Qed.

Lemma bibles_main_collects_witness :
  (extract_bibles.main talkative_tool
     [(str "KJV", kjv_module); (str "Vulgate", vulgate_module)]).2
    !! "vulgate"
  = Some (extract_bibles.extract_bible talkative_tool (str "Vulgate")
            vulgate_module).
Proof.
  destruct (bibles_main_collects talkative_tool
              [(str "KJV", kjv_module); (str "Vulgate", vulgate_module)])
    as (_ & _ & H).
  apply (H ltac:(repeat constructor; vm_compute; intros Hin;
                 repeat (apply elem_of_cons in Hin as [Hin|Hin];
                         [discriminate|]);
                 by apply elem_of_nil in Hin)
           (str "Vulgate") vulgate_module).
  - apply list_elem_of_further, list_elem_of_here.
  - reflexivity.
Defined.

(* ================================================================== *)
(** * Parsing a printed chapter *)
(* ================================================================== *)

Section Printed.
Import Text Re extract_scriptures.










End Printed.

Section PrintedLine.
Import Text Re extract_scriptures.




End PrintedLine.

Section PrintedMatch.
Import Text Re extract_scriptures.





End PrintedMatch.

Section PrintedSplit.
Import Text Re extract_scriptures.









End PrintedSplit.

Section PrintedAttribution.
Import Text Re extract_scriptures.












End PrintedAttribution.

Section PrintedChapter.
Import Text Re extract_scriptures.

















End PrintedChapter.


